(** * Configuration core of hailo_apps: a shallow embedding

    This development embeds [hailo_apps/config/config_core.py] and proves the
    properties its design document states about it.

    - A parsed YAML document is a value of type [yaml].  Mappings are finite
      maps with string keys (the design document's "Document" is a mapping
      from string keys); the source only ever looks keys up or sorts them, so
      the insertion order of a Python dict is not observable and [gmap] is a
      faithful carrier.
    - Python strings are [string]s holding the UTF-8 bytes; byte-wise
      comparison of UTF-8 coincides with code-point comparison, which is the
      order [sorted] uses on [str].
    - Exceptions are explicit: a call either returns [Ok v] or raises
      [Raise e]. *)

From Stdlib Require Import ZArith String Ascii List SpecFloat.
From stdpp Require Import base option list gmap strings sorting.

Local Open Scope string_scope.
Local Open Scope list_scope.
Local Set Warnings "-register-all".

(** ** Values *)

(** What [yaml.safe_load] builds from the core schema: null, booleans,
    integers, floats, strings, sequences and mappings. *)
Inductive yaml : Type :=
  | YNull
  | YBool (b : bool)
  | YInt (z : Z)
  | YFloat (f : spec_float)
  | YStr (s : string)
  | YList (l : list yaml)
  | YDict (d : gmap string yaml).

(** [type(v).__name__], as it appears in an [AttributeError]. *)
Definition type_name (v : yaml) : string :=
  match v with
  | YNull => "NoneType"
  | YBool _ => "bool"
  | YInt _ => "int"
  | YFloat _ => "float"
  | YStr _ => "str"
  | YList _ => "list"
  | YDict _ => "dict"
  end.

(** [isinstance(v, dict)] *)
Definition is_dict (v : yaml) : bool :=
  match v with YDict _ => true | _ => false end.

(** Python truthiness, [bool(v)]. *)
Definition truthy (v : yaml) : bool :=
  match v with
  | YNull => false
  | YBool b => b
  | YInt z => negb (Z.eqb z 0)
  | YFloat (S754_zero _) => false
  | YFloat _ => true
  | YStr s => negb (String.eqb s "")
  | YList l => match l with [] => false | _ :: _ => true end
  | YDict d => negb (bool_decide (d = ∅))
  end.

(** [v == s] for a Python [str] [s]: only an equal [str] compares equal. *)
Definition eq_str (v : yaml) (s : string) : bool :=
  match v with YStr t => String.eqb t s | _ => false end.

(** ** Exceptions

    [ConfigError msg cause]: [cause] is the exception the error was raised
    [from], when there is one.  [AttributeError] is what Python raises when
    [get] or [items] is called on a value that is not a dict.  [PyError cls
    msg] is any other exception, of class [cls], that the operating system
    or a library raises and that this module does not catch
    ([IsADirectoryError], [PermissionError], [UnicodeDecodeError], ...). *)

Inductive exn : Type :=
  | ConfigError (msg : string) (cause : option string)
  | AttributeError (obj_type attr : string)
  | PyError (cls msg : string).

Inductive result (A : Type) : Type :=
  | Ok (a : A)
  | Raise (e : exn).
Arguments Ok {A} a.
Arguments Raise {A} e.

#[export] Instance result_ret : MRet result := fun A a => Ok a.
#[export] Instance result_bind : MBind result := fun A B f m =>
  match m with Ok a => f a | Raise e => Raise e end.


(** ** Dictionary access *)

(** [d.get(k, dflt)] on a dict. *)
Definition dict_get (d : gmap string yaml) (k : string) (dflt : yaml) : yaml :=
  match d !! k with Some v => v | None => dflt end.

(** [v.get(k, dflt)] on an arbitrary value: only a dict has [get]. *)
Definition py_get (v : yaml) (k : string) (dflt : yaml) : result yaml :=
  match v with
  | YDict d => Ok (dict_get d k dflt)
  | _ => Raise (AttributeError (type_name v) "get")
  end.

(** [v.items()] on an arbitrary value: only a dict has [items]. *)
Definition py_items (v : yaml) : result (list (string * yaml)) :=
  match v with
  | YDict d => Ok (map_to_list d)
  | _ => Raise (AttributeError (type_name v) "items")
  end.

(** [sorted] on a list of [str]. *)
Definition sorted (l : list string) : list string := merge_sort String.le l.

(** ** Dataclasses *)

(** [ModelEntry]: a frozen dataclass; the fields hold whatever value the
    document supplied ([None] is [YNull]). *)
Record ModelEntry : Type := mkModelEntry {
  name : yaml;
  source : yaml;
  url : yaml
}.

(** ** YAML loading *)

(** [str.lower] on ASCII letters.  Bytes outside [A-Z] are unchanged; this
    is exact for the comparison with ["none"] below, since no code point
    outside ASCII lowercases to [n], [o] or [e]. *)
Definition ascii_lower (c : ascii) : ascii :=
  let n := nat_of_ascii c in
  if Nat.leb 65 n && Nat.leb n 90 then ascii_of_nat (n + 32) else c.

Fixpoint lower (s : string) : string :=
  match s with
  | EmptyString => EmptyString
  | String c s' => String (ascii_lower c) (lower s')
  end.

Definition _is_none (value : yaml) : bool :=
  match value with
  | YNull => true
  | YStr s => String.eqb (lower s) "none"
  | _ => false
  end.

(** ** Model resolution *)

(** One iteration of the loop of [_extract_models]: [out] is the list built
    so far, [e] the current element. *)
Definition extract_step (out : list ModelEntry) (e : yaml) : list ModelEntry :=
  if _is_none e then out
  else match e with
       | YDict d =>
           let name := dict_get d "name" YNull in
           if negb (_is_none name)
           then out ++ [mkModelEntry name (dict_get d "source" (YStr "mz"))
                                     (dict_get d "url" YNull)]
           else out
       | YStr _ => out ++ [mkModelEntry e (YStr "mz") YNull]
       | _ => out
       end.

Definition _extract_models (entry : yaml) : list ModelEntry :=
  if _is_none entry then []
  else
    let entries := match entry with YList l => l | _ => [entry] end in
    fold_left extract_step entries [].

(** ** Loading a document

    The file system and the YAML parser are the environment of the loader.
    [fs path] is [None] when the path does not exist; for an existing path it
    says what opening the file and reading it as text gives: the text, or the
    exception that [open] or the decoding raises.  [safe_load] is
    [yaml.safe_load] on the text: it returns the parsed value, raises a
    [yaml.YAMLError] (here its message), or raises an exception that is not
    a [yaml.YAMLError].  The files do not change while the process runs.

    [_load_yaml] is decorated with [lru_cache(maxsize=16)]: the cache is
    threaded through the call as explicit state, most recently used entry
    first. *)

Definition Path : Type := string.

Inductive file : Type :=
  | Readable (text : string)
  | Unreadable (cls msg : string).

Inductive parse_result : Type :=
  | Parsed (v : yaml)
  | YAMLError (e : string)
  | OtherError (cls msg : string).

Definition Cache : Type := list (Path * yaml).

Definition maxsize : nat := 16.

Fixpoint cache_find (path : Path) (c : Cache) : option yaml :=
  match c with
  | [] => None
  | (p, v) :: c' => if String.eqb p path then Some v else cache_find path c'
  end.

Definition cache_drop (path : Path) (c : Cache) : Cache :=
  filter (λ kv : Path * yaml, kv.1 ≠ path) c.

Section Loader.
Variable fs : Path → option file.
Variable safe_load : string → parse_result.

(** The function under the decorator: only a [yaml.YAMLError] is caught
    and turned into a [ConfigError]; any other exception leaves the function
    as it is. *)
Definition _load_yaml_wrapped (path : Path) : result yaml :=
  match fs path with
  | None => Raise (ConfigError ("Missing config file: " +:+ path) None)
  | Some (Unreadable cls msg) => Raise (PyError cls msg)
  | Some (Readable text) =>
      match safe_load text with
      | Parsed v => Ok (if truthy v then v else YDict ∅)
      | YAMLError e =>
          Raise (ConfigError ("Invalid YAML in " +:+ path +:+ ": " +:+ e)
                             (Some e))
      | OtherError cls msg => Raise (PyError cls msg)
      end
  end.

(** The decorated function: a hit returns the cached document and makes
    its entry the most recent one; a miss runs the body, and a returned
    document is cached, evicting the least recently used entry when the
    cache is full.  An exception is not cached. *)
Definition _load_yaml (path : Path) (c : Cache) : result yaml * Cache :=
  match cache_find path c with
  | Some v => (Ok v, (path, v) :: cache_drop path c)
  | None =>
      match _load_yaml_wrapped path with
      | Ok v => (Ok v, take maxsize ((path, v) :: c))
      | Raise e => (Raise e, c)
      end
  end.

(** Every cached document is what the body returns for its path: true of
    the empty cache and kept by every call. *)
Definition cache_sound (c : Cache) : Prop :=
  ∀ p v, (p, v) ∈ c → _load_yaml_wrapped p = Ok v.
End Loader.

(** The cache of a process that has loaded the paths of [paths] one after
    the other, starting with the cache [c]. *)
Definition load_sequence (fs : Path → option file)
    (safe_load : string → parse_result) (paths : list Path) (c : Cache)
  : Cache :=
  fold_left (λ c p, (_load_yaml fs safe_load p c).2) paths c.

(** ** Resources config

    Every accessor below starts with [cfg = get_resources_config()]; the
    embedding takes that document as its first argument. *)

Definition skip : gset string :=
  {[ "videos"; "images"; "json"; "inputs"; "inputs_aliases" ]}.

Definition get_available_apps (cfg : yaml) : result (list string) :=
  items ← py_items cfg;
  mret (sorted
    (omap (λ kv : string * yaml,
             if is_dict kv.2 && bool_decide (kv.1 ∉ skip) then Some kv.1 else None)
          items)).

Definition get_supported_architectures (cfg : yaml) (app : string)
  : result (list string) :=
  a ← py_get cfg app (YDict ∅);
  models ← py_get a "models" (YDict ∅);
  items ← py_items models;
  mret (sorted
    (omap (λ kv : string * yaml, if is_dict kv.2 then Some kv.1 else None)
          items)).

(** [cfg.get(app, {}).get("models", {}).get(arch, {}).get(tier)] *)
Definition tier_slot (cfg : yaml) (app arch tier : string) : result yaml :=
  a ← py_get cfg app (YDict ∅);
  models ← py_get a "models" (YDict ∅);
  archv ← py_get models arch (YDict ∅);
  py_get archv tier YNull.

Definition get_default_models (cfg : yaml) (app arch : string)
  : result (list ModelEntry) :=
  raw ← tier_slot cfg app arch "default";
  mret (_extract_models raw).

Definition get_extra_models (cfg : yaml) (app arch : string)
  : result (list ModelEntry) :=
  raw ← tier_slot cfg app arch "extra";
  mret (_extract_models raw).

Definition get_all_models (cfg : yaml) (app arch : string)
  : result (list ModelEntry) :=
  d ← get_default_models cfg app arch;
  e ← get_extra_models cfg app arch;
  mret (d ++ e).

(** The [for m in ...: if m.name == model: return m] scan, [None] when the
    loop falls through. *)
Fixpoint scan_name (ms : list ModelEntry) (model : string) : option ModelEntry :=
  match ms with
  | [] => None
  | m :: ms' => if eq_str (name m) model then Some m else scan_name ms' model
  end.

Definition get_model_info (cfg : yaml) (app arch model : string)
  : result (option ModelEntry) :=
  ms ← get_all_models cfg app arch;
  mret (scan_name ms model).

(** ** Inputs *)

Definition resolve_inputs_app (cfg : yaml) (app : string) : result yaml :=
  aliases ← py_get cfg "inputs_aliases" (YDict ∅);
  py_get aliases app (YStr app).

(** ** Gen-AI detection *)

(** The inner loop: [True] as soon as a model's source is ["gen-ai-mz"]. *)
Fixpoint scan_source (ms : list ModelEntry) : bool :=
  match ms with
  | [] => false
  | m :: ms' => if eq_str (source m) "gen-ai-mz" then true else scan_source ms'
  end.

(** The outer loop over the architectures. *)
Fixpoint scan_archs (cfg : yaml) (app : string) (archs : list string)
  : result bool :=
  match archs with
  | [] => mret false
  | arch :: archs' =>
      ms ← get_all_models cfg app arch;
      if scan_source ms then mret true else scan_archs cfg app archs'
  end.

Definition is_gen_ai_app (cfg : yaml) (app : string) : result bool :=
  archs ← get_supported_architectures cfg app;
  scan_archs cfg app archs.

(** ** The normalization algorithm of the design document

    Section 4.5 of the design document, written from its words, to be
    compared with [_extract_models].  A slot is [None] when the key is
    absent and [Some v] when the document gives it the value [v]. *)

(** A letter in either case. *)
Definition either_case (lo up c : ascii) : bool :=
  Ascii.eqb c lo || Ascii.eqb c up.

(** The case-insensitive string ["none"]. *)
Definition none_string (s : string) : bool :=
  match s with
  | String a (String b (String c (String d EmptyString))) =>
      either_case "n" "N" a && either_case "o" "O" b
      && either_case "n" "N" c && either_case "e" "E" d
  | _ => false
  end.

(** Null or the case-insensitive string ["none"]. *)
Definition spec_null (v : yaml) : bool :=
  match v with
  | YNull => true
  | YStr s => none_string s
  | _ => false
  end.

(** Step 3: what one element of the sequence contributes. *)
Definition spec_element (e : yaml) : option ModelEntry :=
  match e with
  | YDict d =>
      match d !! "name" with
      | Some n =>
          if spec_null n then None
          else Some (mkModelEntry n (default (YStr "mz") (d !! "source"))
                                    (default YNull (d !! "url")))
      | None => None
      end
  | YStr s =>
      if none_string s then None
      else Some (mkModelEntry (YStr s) (YStr "mz") YNull)
  | _ => None
  end.

(** Steps 1 and 2: the elements a slot holds. *)
Definition spec_sequence (raw : option yaml) : list yaml :=
  match raw with
  | None => []
  | Some (YList l) => l
  | Some v => if spec_null v then [] else [v]
  end.

Definition spec_normalize (raw : option yaml) : list ModelEntry :=
  omap spec_element (spec_sequence raw).

(** ** Exceptions outside the configuration core

    The functions below can also fail with Python's own [TypeError]
    (an unhashable key, a value that cannot be iterated) and [IndexError];
    [CoreExn] carries the exceptions of the accessors above. *)

Inductive py_exn : Type :=
  | CoreExn (e : exn)
  | TypeError (msg : string)
  | IndexError (idx : nat).

Inductive outcome (A : Type) : Type :=
  | Returns (a : A)
  | Fails (e : py_exn).
Arguments Returns {A} a.
Arguments Fails {A} e.

#[export] Instance outcome_ret : MRet outcome := fun A a => Returns a.
#[export] Instance outcome_bind : MBind outcome := fun A B f m =>
  match m with Returns a => f a | Fails e => Fails e end.

Definition lift {A} (r : result A) : outcome A :=
  match r with Ok a => Returns a | Raise e => Fails (CoreExn e) end.

(** [v.get(key, dflt)] where the key is itself a document value: the
    attribute is looked up first, then the key is hashed.  A list or a dict
    is unhashable; any other key that is not a [str] is hashable and is not
    among the string keys of a document mapping. *)
Definition py_get_key (v key dflt : yaml) : outcome yaml :=
  match v with
  | YDict d =>
      match key with
      | YStr k => Returns (dict_get d k dflt)
      | YList _ => Fails (TypeError "unhashable type: 'list'")
      | YDict _ => Fails (TypeError "unhashable type: 'dict'")
      | _ => Returns dflt
      end
  | _ => Fails (CoreExn (AttributeError (type_name v) "get"))
  end.

(** ** Inputs and shared pools *)

Definition get_inputs_config (cfg : yaml) : result yaml :=
  py_get cfg "inputs" (YDict ∅).

Definition get_inputs_for_app (cfg : yaml) (app : string) : outcome yaml :=
  inputs ← lift (get_inputs_config cfg);
  resolved ← lift (resolve_inputs_app cfg app);
  py_get_key inputs resolved (YDict ∅).

Definition get_shared_images (cfg : yaml) : result yaml :=
  py_get cfg "images" (YList []).

Definition get_shared_videos (cfg : yaml) : result yaml :=
  py_get cfg "videos" (YList []).

Definition get_shared_json_files (cfg : yaml) : result yaml :=
  py_get cfg "json" (YList []).

(** ** Path resolution

    A resolved absolute path is the list of its components below the root.
    [module_file] is [Path(__file__).resolve()], the location of
    [config_core.py]. *)

Definition render (p : list string) : Path :=
  match p with
  | [] => "/"
  | _ => foldr (λ c acc, "/" +:+ c +:+ acc) "" p
  end.

(** [p.parents[k]]: the path with its last [k + 1] components removed;
    [IndexError] when there are not that many. *)
Definition parents (p : list string) (k : nat) : outcome (list string) :=
  if Nat.ltb k (List.length p) then Returns (take (List.length p - S k) p)
  else Fails (IndexError k).

(** The state of the process: the cache of [_load_yaml] and the class
    attribute [ConfigPaths._repo_root]. *)
Record World : Type := mkWorld {
  yaml_cache : Cache;
  _repo_root : option (list string)
}.

Definition M (A : Type) : Type := World → outcome A * World.

Definition M_ret {A} (a : A) : M A := λ w, (Returns a, w).

Definition M_bind {A B} (m : M A) (f : A → M B) : M B := λ w,
  match m w with
  | (Returns a, w') => f a w'
  | (Fails e, w') => (Fails e, w')
  end.

Definition M_lift {A} (r : result A) : M A := λ w, (lift r, w).

Section Config.
Variable fs : Path → option file.
Variable safe_load : string → parse_result.
Variable module_file : list string.

Definition repo_root : M (list string) := λ w,
  match _repo_root w with
  | Some r => (Returns r, w)
  | None =>
      match parents module_file 2 with
      | Returns r => (Returns r, mkWorld (yaml_cache w) (Some r))
      | Fails e => (Fails e, w)
      end
  end.

Definition config_dir : M (list string) :=
  M_bind repo_root (λ r, M_ret (r ++ ["hailo_apps"; "config"])).

Definition main_config : M (list string) :=
  M_bind config_dir (λ d, M_ret (d ++ ["config.yaml"])).

Definition resources_config : M (list string) :=
  M_bind config_dir (λ d, M_ret (d ++ ["resources_config.yaml"])).

(** A call of [_load_yaml] in the process state. *)
Definition load_yaml (p : list string) : M yaml := λ w,
  let '(r, c) := _load_yaml fs safe_load (render p) (yaml_cache w) in
  (lift r, mkWorld c (_repo_root w)).

Definition get_main_config : M yaml :=
  M_bind main_config load_yaml.

Definition get_resources_path_config : M yaml :=
  M_bind get_main_config (λ cfg, M_lift (py_get cfg "resources" (YDict ∅))).

Definition get_model_zoo_mapping : M yaml :=
  M_bind get_main_config
    (λ cfg, M_lift (py_get cfg "model_zoo_mapping" (YDict ∅))).

Definition get_resources_config : M yaml :=
  M_bind resources_config load_yaml.
End Config.

(** ** Strings *)

(** [needle in hay] on two [str]. *)
Fixpoint str_contains (needle hay : string) : bool :=
  String.prefix needle hay
  || match hay with
     | EmptyString => false
     | String _ hay' => str_contains needle hay'
     end.

(** ** Audio devices ([audio_diagnostics.py])

    [sd.query_devices()] yields one record per device, with the fields the
    source reads; a device's id is its position in that enumeration.  The
    sample rates are binary64 floats. *)

Module AudioDiagnostics.

Record RawDevice : Type := mkRawDevice {
  raw_name : string;
  raw_hostapi : Z;
  raw_max_input_channels : Z;
  raw_max_output_channels : Z;
  raw_default_samplerate : spec_float
}.

Record AudioDeviceInfo : Type := mkAudioDeviceInfo {
  id : Z;
  name : string;
  host_api : Z;
  max_input_channels : Z;
  max_output_channels : Z;
  default_samplerate : spec_float;
  is_default : bool;
  score : Z;
  test_result : bool;
  error_msg : string
}.

(** The [AudioDeviceInfo(...)] built for the device at position [i]. *)
Definition device_info (default_input default_output : Z) (i : nat)
    (dev : RawDevice) : AudioDeviceInfo :=
  mkAudioDeviceInfo (Z.of_nat i) (raw_name dev) (raw_hostapi dev)
    (raw_max_input_channels dev) (raw_max_output_channels dev)
    (raw_default_samplerate dev)
    (if Z.ltb 0 (raw_max_input_channels dev)
     then Z.eqb (Z.of_nat i) default_input
     else Z.eqb (Z.of_nat i) default_output)
    0 false "".

(** The loop of [list_audio_devices] from position [i] on; the two lists
    are the ones built so far. *)
Fixpoint list_loop (default_input default_output : Z) (i : nat)
    (devices : list RawDevice)
    (input_devices output_devices : list AudioDeviceInfo)
  : list AudioDeviceInfo * list AudioDeviceInfo :=
  match devices with
  | [] => (input_devices, output_devices)
  | dev :: devices' =>
      let info := device_info default_input default_output i dev in
      let input_devices' :=
        if Z.ltb 0 (raw_max_input_channels dev)
        then input_devices ++ [info] else input_devices in
      let output_devices' :=
        if Z.ltb 0 (raw_max_output_channels dev)
        then output_devices ++ [info] else output_devices in
      list_loop default_input default_output (S i) devices'
                input_devices' output_devices'
  end.

(** [query] is what [sd.query_devices()] and [sd.default.device] give:
    the devices and the default input and output ids, or [None] when the
    query raises. *)
Definition list_audio_devices (query : option (list RawDevice * (Z * Z)))
  : list AudioDeviceInfo * list AudioDeviceInfo :=
  match query with
  | None => ([], [])
  | Some (devices, (default_input, default_output)) =>
      list_loop default_input default_output 0 devices [] []
  end.

(** [name.lower()], as far as a test against an ASCII needle can see.  The
    ASCII letters are lowered.  U+0130 (the bytes 196 176) becomes [i]
    followed by U+0307 (the bytes 204 135): it is the one code point outside
    ASCII whose lowercase holds a letter of "usb" or "hdmi".  Every other
    byte is kept: the lowercase of any other code point outside ASCII is
    again outside ASCII, where no ASCII needle matches. *)
Fixpoint name_lower (s : string) : string :=
  match s with
  | EmptyString => EmptyString
  | String c s' =>
      match s' with
      | String c' s'' =>
          if Ascii.eqb c "196" && Ascii.eqb c' "176"
          then String "i" (String "204" (String "135" (name_lower s'')))
          else String (ascii_lower c) (name_lower s')
      | EmptyString => String (ascii_lower c) EmptyString
      end
  end.

Section Scoring.
(** [TARGET_SR] of [defines], as the float it is in the subtraction. *)
Variable TARGET_SR : spec_float.

(** [abs(rate - TARGET_SR) < 1.0] in binary64. *)
Definition rate_matches (rate : spec_float) : bool :=
  SFltb (SFabs (SFsub 53 1024 rate TARGET_SR))
        (S754_finite false 4503599627370496 (-52)).

Definition score_device (device : AudioDeviceInfo) (is_input : bool) : Z :=
  let score := 0%Z in
  let score := if is_default device then (score + 100)%Z else score in
  let name_lower := name_lower (name device) in
  let score := if str_contains "usb" name_lower then (score + 50)%Z else score in
  let score :=
    if str_contains "hdmi" name_lower && is_input then (score - 50)%Z
    else score in
  let score :=
    if rate_matches (default_samplerate device) then (score + 20)%Z
    else score in
  score.

(** One iteration of a selection loop of [auto_detect_devices]: the pair is
    ([best], [best_score]). *)
Definition best_step (is_input : bool) (acc : option Z * Z)
    (dev : AudioDeviceInfo) : option Z * Z :=
  let score := score_device dev is_input in
  if Z.ltb acc.2 score then (Some (id dev), score) else acc.

Definition auto_detect_devices (query : option (list RawDevice * (Z * Z)))
  : option Z * option Z :=
  let '(input_devices, output_devices) := list_audio_devices query in
  ((fold_left (best_step true) input_devices (None, (-9999)%Z)).1,
   (fold_left (best_step false) output_devices (None, (-9999)%Z)).1).
End Scoring.

End AudioDiagnostics.

(** ** Downloaded LLM models ([interactive_llm_chat.py])

    [models_dir] is [None] when the directory does not exist, and otherwise
    [sorted(models_dir.glob(...))]: each file with its [stem].
    [get_model_names app] is the call
    [get_model_names(app, HAILO10H_ARCH, tier="all")], [None] when it
    raises. *)

Definition EXCLUDE_PATTERNS : list string := ["Whisper"; "clip_vit"; "Qwen2-VL"].

Section FindModels.
Variable LLM_CHAT_APP : string.
Variable get_model_names : string → option (list string).
Variable models_dir : option (list (Path * string)).

Definition known_llm_names : gset string :=
  fold_left
    (λ (known : gset string) (app : string),
       match get_model_names app with
       | Some names => known ∪ list_to_set names
       | None => known
       end)
    [LLM_CHAT_APP; "agent"] ∅.

(** One iteration of the loop over the files. *)
Definition candidate_step (known : gset string) (candidates : list Path)
    (hef_file : Path * string) : list Path :=
  let model_name := hef_file.2 in
  if bool_decide (model_name ∈ known) then candidates ++ [hef_file.1]
  else if existsb (λ p, String.prefix p model_name) EXCLUDE_PATTERNS
       then candidates
  else if str_contains "Instruct" model_name then candidates ++ [hef_file.1]
  else candidates.

Definition find_downloaded_llm_models : list Path :=
  match models_dir with
  | None => []
  | Some files => fold_left (candidate_step known_llm_names) files []
  end.
End FindModels.

(** ** Worked documents *)

Definition ydict (l : list (string * yaml)) : yaml := YDict (list_to_map l).

(** The end-to-end document of the design document. *)
Definition detection_doc : yaml :=
  ydict [("detection", ydict [("models", ydict [("hailo8", ydict [
    ("default", ydict [("name", YStr "yolov8s"); ("source", YStr "mz")]);
    ("extra", YList [
       ydict [("name", YStr "yolov8m"); ("source", YStr "mz");
              ("url", YStr "http://x/y.hef")];
       YStr "yolov8n"])])])])].

(** A resource document with reserved pools, an alias, a scalar key, and
    the same model name in both tiers of one architecture. *)
Definition resource_map : gmap string yaml :=
  list_to_map [
    ("version", YInt 2);
    ("videos", YList [ydict [("name", YStr "example.mp4")]]);
    ("images", YList []);
    ("inputs", ydict [("chat", ydict [("images", YList [])])]);
    ("inputs_aliases", ydict [("llm_chat", YStr "chat")]);
    ("detection", ydict [("models", ydict [
       ("hailo8", ydict [
          ("default", YStr "yolov8s");
          ("extra", YList [
             ydict [("name", YStr "yolov8s"); ("source", YStr "s3");
                    ("url", YStr "http://x/s.hef")];
             YStr "yolov8n"])]);
       ("hailo8l", YStr "tbd")])]);
    ("llm_chat", ydict [("models", ydict [
       ("hailo10h", ydict [
          ("default", ydict [("name", YStr "qwen"); ("source", YStr "gen-ai-mz")]);
          ("extra", YStr "None")])])])].

Definition resource_doc : yaml := YDict resource_map.

(** A file system with an empty main document, a resource document the
    parser rejects and a document that is a sequence; [demo_safe_load] is
    the parser on these three texts. *)
Definition demo_fs (path : Path) : option file :=
  if String.eqb path "/opt/hailo_apps/config/config.yaml"
  then Some (Readable "")
  else if String.eqb path "/opt/hailo_apps/config/resources_config.yaml"
       then Some (Readable "detection: [")
  else if String.eqb path "/opt/hailo_apps/config/apps.yaml"
       then Some (Readable "- chat")
  else None.


Definition demo_safe_load (text : string) : parse_result :=
  if String.eqb text "" then Parsed YNull
  else if String.eqb text "- chat" then Parsed (YList [YStr "chat"])
  else YAMLError "while parsing a flow sequence".

(** An app with two architecture keys, one of them not a mapping. *)
Definition pose_models : gmap string yaml :=
  list_to_map [("hailo8", ydict [("default", YStr "yolov8s_pose")]);
               ("hailo8l", YStr "tbd")].

Definition pose_app : gmap string yaml :=
  list_to_map [("models", YDict pose_models)].

Definition pose_map : gmap string yaml :=
  list_to_map [("pose", YDict pose_app)].

(** A process at start-up, the module file of an installation under
    [/opt], and file systems that hold only the main document, with the
    given text. *)
Definition demo_world : World := mkWorld [] None.

Definition demo_module_file : list string :=
  ["opt"; "hailo_apps"; "config"; "config_core.py"].

Definition main_fs (text : string) (path : Path) : option file :=
  if String.eqb path "/opt/hailo_apps/config/config.yaml"
  then Some (Readable text)
  else None.

Definition main_safe_load (text : string) : parse_result :=
  if String.eqb text "model_zoo_mapping: {v: 2}"
  then Parsed (ydict [("model_zoo_mapping", ydict [("v", YInt 2)])])
  else demo_safe_load text.

(** Three devices as [sd.query_devices()] reports them: an HDMI output at
    48000 Hz, a USB headset at 16000 Hz that records and plays, and the
    virtual device of the sound server at 44100 Hz; 16000 Hz as the target
    rate. *)
Definition rate_16000 : spec_float := S754_finite false 8796093022208000 (-39).
Definition rate_48000 : spec_float := S754_finite false 6597069766656000 (-37).
Definition rate_44100 : spec_float := S754_finite false 6061057848115200 (-37).

Definition demo_devices : list AudioDiagnostics.RawDevice :=
  [AudioDiagnostics.mkRawDevice "HDA Intel HDMI 0" 0 0 2 rate_48000;
   AudioDiagnostics.mkRawDevice "USB Audio Device" 0 1 2 rate_16000;
   AudioDiagnostics.mkRawDevice "default" 0 32 32 rate_44100].

(** The default input is the virtual device, the default output the
    headset. *)
Definition demo_query
  : option (list AudioDiagnostics.RawDevice * (Z * Z)) :=
  Some (demo_devices, (2%Z, 1%Z)).

Example detection_archs :
  get_supported_architectures detection_doc "detection" = Ok ["hailo8"].
Proof. vm_compute. reflexivity. Qed.

Example detection_all :
  get_all_models detection_doc "detection" "hailo8"
  = Ok [mkModelEntry (YStr "yolov8s") (YStr "mz") YNull;
        mkModelEntry (YStr "yolov8m") (YStr "mz") (YStr "http://x/y.hef");
        mkModelEntry (YStr "yolov8n") (YStr "mz") YNull].
Proof. vm_compute. reflexivity. Qed.

Example detection_info :
  get_model_info detection_doc "detection" "hailo8" "yolov8n"
  = Ok (Some (mkModelEntry (YStr "yolov8n") (YStr "mz") YNull))
  ∧ get_model_info detection_doc "detection" "hailo8" "missing" = Ok None.
Proof. vm_compute. split; reflexivity. Qed.

(** ** The result monad *)

Lemma bind_Ok {A B} (f : A → result B) (m : result A) (b : B) :
  m ≫= f = Ok b ↔ ∃ a, m = Ok a ∧ f a = Ok b.
Proof.
  destruct m as [a|e]; simpl.
  - split; [eauto | intros (a' & [= <-] & H); exact H].
  - split; [discriminate | intros (a' & [=] & _)].
Qed.

Lemma py_get_Ok v k dflt r :
  py_get v k dflt = Ok r ↔ ∃ d, v = YDict d ∧ r = dict_get d k dflt.
Proof.
  split.
  - destruct v; simpl; intros [= <-]; eauto.
  - intros (d & -> & ->). reflexivity.
Qed.

(** ** Normalization *)

Lemma ascii_lower_letters c :
  Ascii.eqb (ascii_lower c) "n" = either_case "n" "N" c
  ∧ Ascii.eqb (ascii_lower c) "o" = either_case "o" "O" c
  ∧ Ascii.eqb (ascii_lower c) "e" = either_case "e" "E" c.
Proof. destruct c as [[] [] [] [] [] [] [] []]; vm_compute; auto. Qed.

Lemma lower_none s : String.eqb (lower s) "none" = none_string s.
Proof.
  destruct s as [|a [|b [|c [|d [|x s]]]]]; simpl; try reflexivity.
  - destruct (Ascii.eqb (ascii_lower a) "n"); reflexivity.
  - destruct (Ascii.eqb (ascii_lower a) "n"), (Ascii.eqb (ascii_lower b) "o");
      reflexivity.
  - destruct (Ascii.eqb (ascii_lower a) "n"), (Ascii.eqb (ascii_lower b) "o"),
      (Ascii.eqb (ascii_lower c) "n"); reflexivity.
  - destruct (ascii_lower_letters a) as (-> & _ & _).
    destruct (ascii_lower_letters b) as (_ & -> & _).
    destruct (ascii_lower_letters c) as (-> & _ & _).
    destruct (ascii_lower_letters d) as (_ & _ & ->).
    destruct (either_case "n" "N" a), (either_case "o" "O" b),
      (either_case "n" "N" c), (either_case "e" "E" d); reflexivity.
  - destruct (Ascii.eqb (ascii_lower a) "n"), (Ascii.eqb (ascii_lower b) "o"),
      (Ascii.eqb (ascii_lower c) "n"), (Ascii.eqb (ascii_lower d) "e");
      reflexivity.
Qed.

Lemma is_none_spec v : _is_none v = spec_null v.
Proof. destruct v; simpl; auto using lower_none. Qed.

(** One loop iteration appends what the element contributes. *)
Lemma extract_step_spec out e :
  extract_step out e = out ++ option_list (spec_element e).
Proof.
  unfold extract_step. rewrite is_none_spec.
  destruct e as [| | | |s|l|d]; simpl; try (by rewrite app_nil_r).
  - destruct (none_string s); simpl; [by rewrite app_nil_r | reflexivity].
  - unfold dict_get. destruct (d !! "name") as [n|]; simpl.
    + rewrite is_none_spec. destruct (spec_null n); simpl;
        [by rewrite app_nil_r | reflexivity].
    + by rewrite app_nil_r.
Qed.

Lemma extract_loop_spec l out :
  fold_left extract_step l out = out ++ omap spec_element l.
Proof.
  revert out. induction l as [|e l IH]; intros out; simpl.
  - by rewrite app_nil_r.
  - rewrite IH, extract_step_spec.
    destruct (spec_element e); simpl; [by rewrite <- app_assoc | by rewrite app_nil_r].
Qed.

(** C1: for every raw slot value, absent ([None]) or present, the list
    [_extract_models] returns is the one the normalization algorithm of the
    design document prescribes: nothing for an absent, null or "none" slot, a
    single string or mapping read as a one-element sequence, and per element
    either one [ModelEntry] (mapping with a usable name, or bare string) or
    nothing, in source order. *)
Theorem extract_models_refines_spec (raw : option yaml) :
  _extract_models (default YNull raw) = spec_normalize raw.
Proof.
  unfold _extract_models, spec_normalize. rewrite is_none_spec.
  destruct raw as [v|]; simpl; [|reflexivity].
  destruct v as [| | | |s|l|d]; simpl; try reflexivity.
  - destruct (none_string s) eqn:Hs; simpl; [reflexivity|].
    unfold extract_step. simpl. rewrite lower_none, Hs. reflexivity.
  - apply extract_loop_spec.
  - rewrite extract_step_spec. reflexivity.
Qed.

(** The examples of the design document. *)
Example normalize_none_spellings :
  Forall (λ v, _extract_models v = [])
         [YNull; YStr "None"; YStr "none"; YStr "NONE"].
Proof. repeat constructor. Qed.

Example normalize_bare_string :
  _extract_models (YStr "yolov8s")
  = [mkModelEntry (YStr "yolov8s") (YStr "mz") YNull].
Proof. vm_compute. reflexivity. Qed.

Example normalize_mixed_sequence :
  _extract_models
    (YList [ydict [("name", YStr "yolov8m"); ("source", YStr "mz");
                   ("url", YStr "http://x/y.hef")];
            YStr "yolov8n"])
  = [mkModelEntry (YStr "yolov8m") (YStr "mz") (YStr "http://x/y.hef");
     mkModelEntry (YStr "yolov8n") (YStr "mz") YNull].
Proof. vm_compute. reflexivity. Qed.

(** ** Names of the entries *)

(** The loop keeps any property of the entries that each appended entry
    has. *)
Lemma extract_step_Forall (P : ModelEntry → Prop) out e :
  (∀ m, spec_element e = Some m → P m) →
  Forall P out → Forall P (extract_step out e).
Proof.
  intros He Hout. rewrite extract_step_spec.
  apply Forall_app. split; [exact Hout|].
  destruct (spec_element e) as [m|]; simpl; [|constructor].
  constructor; [by apply He | constructor].
Qed.

Lemma spec_element_name e m :
  spec_element e = Some m → _is_none (name m) = false.
Proof.
  rewrite is_none_spec.
  destruct e as [| | | |s|l|d]; simpl; try discriminate.
  - destruct (none_string s) eqn:Hs; [discriminate|].
    intros [= <-]. exact Hs.
  - destruct (d !! "name") as [n|]; [|discriminate].
    destruct (spec_null n) eqn:Hn; [discriminate|].
    intros [= <-]. exact Hn.
Qed.

Lemma extract_loop_names l out :
  Forall (λ m, _is_none (name m) = false) out →
  Forall (λ m, _is_none (name m) = false) (fold_left extract_step l out).
Proof.
  revert out. induction l as [|e l IH]; intros out Hout; simpl; [exact Hout|].
  apply IH, extract_step_Forall; [apply spec_element_name | exact Hout].
Qed.

(** C3, as the code has it: every entry [_extract_models] returns has a name
    that is neither null nor the string "none" in any letter case; the empty
    string is a name like any other.  Normalization is a total function, so
    dropping an element never raises. *)
Theorem extract_models_names_not_none (raw : yaml) (m : ModelEntry) :
  m ∈ _extract_models raw → _is_none (name m) = false.
Proof.
  unfold _extract_models. destruct (_is_none raw).
  - intros H. by apply elem_of_nil in H.
  - intros H. revert m H. apply Forall_forall, extract_loop_names. constructor.
Qed.

Lemma extract_models_names_not_none_witness :
  _is_none (name (mkModelEntry (YStr "yolov8s") (YStr "mz") YNull)) = false.
Proof.
  apply (extract_models_names_not_none (YStr "yolov8s")).
  vm_compute. left.
Defined.

(** C3 as stated fails: an empty name, written bare or in a mapping, goes
    through normalization and comes out as the name of an entry. *)
Lemma extract_models_empty_name :
  _extract_models (YStr "") = [mkModelEntry (YStr "") (YStr "mz") YNull]
  ∧ _extract_models (ydict [("name", YStr "")])
    = [mkModelEntry (YStr "") (YStr "mz") YNull]
  ∧ ¬ (∀ raw m, m ∈ _extract_models raw → name m ≠ YStr "").
Proof.
  split; [vm_compute; reflexivity|]. split; [vm_compute; reflexivity|].
  intros H.
  apply (H (YStr "") (mkModelEntry (YStr "") (YStr "mz") YNull));
    [vm_compute; left | reflexivity].
Qed.

(** ** Structural absence *)

Lemma sorted_nil : sorted [] = [].
Proof. reflexivity. Qed.

Lemma sorted_perm l : sorted l ≡ₚ l.
Proof. apply merge_sort_Permutation. Qed.

Lemma sorted_elem_of k l : k ∈ sorted l ↔ k ∈ l.
Proof. by rewrite sorted_perm. Qed.

Lemma extract_models_empty_dict : _extract_models (YDict ∅) = [].
Proof. reflexivity. Qed.

(** The keys kept by the comprehension of [get_supported_architectures]. *)
Lemma arch_keys_elem_of (ms : gmap string yaml) k :
  k ∈ omap (λ kv : string * yaml, if is_dict kv.2 then Some kv.1 else None)
           (map_to_list ms)
  ↔ ∃ v, ms !! k = Some v ∧ is_dict v = true.
Proof.
  rewrite list_elem_of_omap. split.
  - intros ([k' v] & Hin & Hk). simpl in Hk.
    destruct (is_dict v) eqn:Hv; [|discriminate]. injection Hk as ->.
    apply elem_of_map_to_list in Hin. eauto.
  - intros (v & Hk & Hv). exists (k, v). split.
    + by apply elem_of_map_to_list.
    + simpl. by rewrite Hv.
Qed.

(** C2, as the code has it: in a resource document (a mapping), an absent
    app, an app mapping without a models key, and a models mapping without
    the architecture each give empty results and no error; an architecture
    whose value is not a mapping is left out of the supported
    architectures. *)
Theorem structural_absence_is_empty (d : gmap string yaml) (app arch : string) :
  (d !! app = None →
     get_supported_architectures (YDict d) app = Ok []
     ∧ get_default_models (YDict d) app arch = Ok []
     ∧ get_extra_models (YDict d) app arch = Ok [])
  ∧ (∀ a, d !! app = Some (YDict a) → a !! "models" = None →
     get_supported_architectures (YDict d) app = Ok []
     ∧ get_default_models (YDict d) app arch = Ok []
     ∧ get_extra_models (YDict d) app arch = Ok [])
  ∧ (∀ a ms, d !! app = Some (YDict a) → a !! "models" = Some (YDict ms) →
     ms !! arch = None →
     get_default_models (YDict d) app arch = Ok []
     ∧ get_extra_models (YDict d) app arch = Ok [])
  ∧ (∀ a ms v, d !! app = Some (YDict a) → a !! "models" = Some (YDict ms) →
     ms !! arch = Some v → is_dict v = false →
     ∃ archs, get_supported_architectures (YDict d) app = Ok archs
              ∧ arch ∉ archs).
Proof.
  unfold get_supported_architectures, get_default_models, get_extra_models,
    tier_slot.
  split; [|split; [|split]].
  - intros Happ. simpl. unfold dict_get. rewrite Happ. simpl.
    unfold dict_get. rewrite !lookup_empty. simpl.
    rewrite map_to_list_empty. auto.
  - intros a Happ Hm. simpl. unfold dict_get. rewrite Happ. simpl.
    unfold dict_get. rewrite Hm. simpl.
    unfold dict_get. rewrite !lookup_empty. simpl.
    rewrite map_to_list_empty. auto.
  - intros a ms Happ Hm Harch. simpl. unfold dict_get. rewrite Happ. simpl.
    unfold dict_get. rewrite Hm. simpl.
    unfold dict_get. rewrite Harch. simpl.
    unfold dict_get. rewrite !lookup_empty. auto.
  - intros a ms v Happ Hm Harch Hv. simpl. unfold dict_get. rewrite Happ. simpl.
    unfold dict_get. rewrite Hm. simpl.
    eexists. split; [reflexivity|].
    rewrite sorted_elem_of, arch_keys_elem_of.
    intros (v' & Hv' & Hd). congruence.
Qed.

Lemma structural_absence_is_empty_witness :
  (get_supported_architectures detection_doc "segmentation" = Ok []
   ∧ get_default_models detection_doc "segmentation" "hailo8" = Ok []
   ∧ get_extra_models detection_doc "segmentation" "hailo8" = Ok [])
  ∧ (get_supported_architectures (ydict [("pose", ydict [])]) "pose" = Ok []
     ∧ get_default_models (ydict [("pose", ydict [])]) "pose" "hailo8" = Ok []
     ∧ get_extra_models (ydict [("pose", ydict [])]) "pose" "hailo8" = Ok [])
  ∧ (get_default_models detection_doc "detection" "hailo10h" = Ok []
     ∧ get_extra_models detection_doc "detection" "hailo10h" = Ok [])
  ∧ (∃ archs,
       get_supported_architectures
         (ydict [("pose", ydict [("models", ydict [("hailo8", YStr "tbd")])])])
         "pose" = Ok archs
       ∧ "hailo8" ∉ archs).
Proof.
  split; [|split; [|split]].
  - apply (structural_absence_is_empty _ "segmentation" "hailo8").
    vm_compute. reflexivity.
  - refine (proj1 (proj2 (structural_absence_is_empty _ "pose" "hailo8"))
              ∅ _ _); vm_compute; reflexivity.
  - refine (proj1 (proj2 (proj2
              (structural_absence_is_empty _ "detection" "hailo10h"))) _ _ _ _ _);
      vm_compute; reflexivity.
  - refine (proj2 (proj2 (proj2
              (structural_absence_is_empty _ "pose" "hailo8"))) _ _ (YStr "tbd") _ _ _ _);
      vm_compute; reflexivity.
Defined.

(** C2 as stated fails where a value on the path is present and is not a
    mapping: the chained [get] raises [AttributeError]. *)
Lemma non_mapping_on_path_raises :
  get_supported_architectures (ydict [("pose", YStr "tbd")]) "pose"
  = Raise (AttributeError "str" "get")
  ∧ get_supported_architectures (ydict [("pose", ydict [("models", YList [])])])
      "pose"
    = Raise (AttributeError "list" "items")
  ∧ get_default_models (ydict [("pose", ydict [("models", YNull)])])
      "pose" "hailo8"
    = Raise (AttributeError "NoneType" "get")
  ∧ get_extra_models
      (ydict [("pose", ydict [("models", ydict [("hailo8", YStr "tbd")])])])
      "pose" "hailo8"
    = Raise (AttributeError "str" "get").
Proof. vm_compute. repeat split. Qed.

(** ** Input aliases *)

(** C4, as the code has it: in a resource document whose [inputs_aliases]
    is absent or a mapping, [resolve_inputs_app] returns the value mapped
    under the app when there is one and the app name itself otherwise, and
    does not raise; the value is a string whenever the mapped value is. *)
Theorem resolve_inputs_app_lookup (d : gmap string yaml) (app : string) :
  (d !! "inputs_aliases" = None →
     resolve_inputs_app (YDict d) app = Ok (YStr app))
  ∧ (∀ al : gmap string yaml, d !! "inputs_aliases" = Some (YDict al) →
     resolve_inputs_app (YDict d) app = Ok (default (YStr app) (al !! app))
     ∧ (al !! app = None → resolve_inputs_app (YDict d) app = Ok (YStr app))
     ∧ (∀ target : string, al !! app = Some (YStr target) →
        resolve_inputs_app (YDict d) app = Ok (YStr target))).
Proof.
  unfold resolve_inputs_app. split.
  - intros Hal. simpl. unfold dict_get. rewrite Hal. simpl.
    unfold dict_get. by rewrite lookup_empty.
  - intros al Hal. simpl. unfold dict_get. rewrite Hal. simpl.
    unfold dict_get. split; [|split].
    + by destruct (al !! app).
    + by intros ->.
    + by intros target ->.
Qed.

Lemma resolve_inputs_app_lookup_witness :
  resolve_inputs_app detection_doc "llm_chat" = Ok (YStr "llm_chat")
  ∧ resolve_inputs_app
      (ydict [("inputs_aliases", ydict [("llm_chat", YStr "chat")])]) "llm_chat"
    = Ok (YStr "chat")
  ∧ resolve_inputs_app
      (ydict [("inputs_aliases", ydict [("llm_chat", YStr "chat")])]) "detection"
    = Ok (YStr "detection").
Proof.
  split; [|split].
  - apply (resolve_inputs_app_lookup _ "llm_chat"). vm_compute. reflexivity.
  - refine (proj2 (proj2 (proj2 (resolve_inputs_app_lookup _ "llm_chat") _ _))
              "chat" _); vm_compute; reflexivity.
  - refine (proj1 (proj2 (proj2 (resolve_inputs_app_lookup _ "detection")
              (list_to_map [("llm_chat", YStr "chat")]) _)) _);
      vm_compute; reflexivity.
Defined.

(** C4 as stated fails: a null [inputs_aliases] makes the call raise, and an
    alias mapped to null makes it return null. *)
Lemma resolve_inputs_app_not_total :
  resolve_inputs_app (ydict [("inputs_aliases", YNull)]) "llm_chat"
  = Raise (AttributeError "NoneType" "get")
  ∧ resolve_inputs_app
      (ydict [("inputs_aliases", ydict [("llm_chat", YNull)])]) "llm_chat"
    = Ok YNull.
Proof. vm_compute. split; reflexivity. Qed.

(** ** The loader and its cache *)

Section LoaderFacts.
Variable fs : Path → option file.
Variable safe_load : string → parse_result.

Local Abbreviation wrapped := (_load_yaml_wrapped fs safe_load).
Local Abbreviation load := (_load_yaml fs safe_load).
Local Abbreviation sound := (cache_sound fs safe_load).

Lemma cache_find_Some path c v : cache_find path c = Some v → (path, v) ∈ c.
Proof.
  induction c as [|[p w] c IH]; simpl; [discriminate|].
  destruct (String.eqb_spec p path) as [->|Hne].
  - intros [= ->]. left.
  - intros H. right. by apply IH.
Qed.

Lemma cache_sound_nil : sound [].
Proof. intros p v H. by apply elem_of_nil in H. Qed.

(** A call returns what the body returns: the cache is not observable. *)
Lemma load_yaml_transparent path c :
  sound c → (load path c).1 = wrapped path.
Proof.
  intros Hc. unfold _load_yaml.
  destruct (cache_find path c) as [v|] eqn:Hf; simpl.
  - symmetry. by apply Hc, cache_find_Some.
  - by destruct (wrapped path).
Qed.

Lemma load_yaml_keeps_sound path c : sound c → sound (load path c).2.
Proof.
  intros Hc. unfold _load_yaml.
  destruct (cache_find path c) as [v|] eqn:Hf; cbn [fst snd].
  - intros p w [[= -> ->]|Hin]%elem_of_cons.
    + by apply Hc, cache_find_Some.
    + apply Hc. by apply list_elem_of_filter in Hin as [_ Hin].
  - destruct (wrapped path) as [v|e] eqn:Hw; cbn [fst snd]; [|exact Hc].
    intros p w Hin. apply subseteq_take in Hin.
    apply elem_of_cons in Hin as [[= -> ->]|Hin]; [exact Hw | by apply Hc].
Qed.

Lemma load_yaml_bounded path c :
  (List.length c ≤ maxsize)%nat → (List.length (load path c).2 ≤ maxsize)%nat.
Proof.
  intros Hlen. unfold _load_yaml.
  destruct (cache_find path c) as [v|] eqn:Hf; cbn [fst snd].
  - apply cache_find_Some in Hf.
    pose proof (length_filter_lt (λ kv : Path * yaml, kv.1 ≠ path) c
                  (path, v) Hf) as Hlt.
    unfold cache_drop. simpl in Hlt. specialize (Hlt (λ H, H eq_refl)).
    simpl. exact (Nat.le_trans _ _ _ Hlt Hlen).
  - destruct (wrapped path); cbn [fst snd]; [|exact Hlen].
    rewrite length_take. lia.
Qed.


(** C10: in a process whose cache is sound, a file that parses returns the
    parsed value when that value is truthy and the empty mapping
    otherwise; so null, false, 0, the empty string and the empty sequence
    all give the empty mapping, while a non-empty sequence or string is
    returned as it is, although it is not a mapping. *)
Theorem load_yaml_truthy_or_empty (path : Path) (c : Cache) (text : string)
    (v : yaml) :
  sound c → fs path = Some (Readable text) → safe_load text = Parsed v →
  (load path c).1 = Ok (if truthy v then v else YDict ∅)
  ∧ (v ∈ [YNull; YBool false; YInt 0; YStr ""; YList []] →
     (load path c).1 = Ok (YDict ∅))
  ∧ (∀ x l, v = YList (x :: l) → (load path c).1 = Ok (YList (x :: l)))
  ∧ (∀ a s, v = YStr (String a s) → (load path c).1 = Ok (YStr (String a s))).
Proof.
  intros Hc Hfs Hp. rewrite load_yaml_transparent by exact Hc.
  unfold _load_yaml_wrapped. rewrite Hfs, Hp. split; [reflexivity|].
  split; [|split].
  - intros Hv.
    repeat (apply elem_of_cons in Hv as [->|Hv]; [reflexivity|]).
    by apply elem_of_nil in Hv.
  - by intros x l ->.
  - by intros a s ->.
Qed.
End LoaderFacts.

(** ** Tiers *)

Lemma eq_str_true v s : eq_str v s = true ↔ v = YStr s.
Proof.
  destruct v; simpl; try (split; [discriminate | intros [=]]).
  rewrite String.eqb_eq. split; [by intros -> | by intros [= ->]].
Qed.

Lemma eq_str_false v s : eq_str v s = false ↔ v ≠ YStr s.
Proof.
  rewrite <- eq_str_true. destruct (eq_str v s); split; congruence.
Qed.

(** C6: whenever both tiers resolve, [get_all_models] returns the default
    tier's entries followed by the extra tier's entries: position [i] holds
    the [i]-th default entry, and past the default tier the entries of the
    extra tier in their order; nothing is merged or removed, so the lengths
    add up.  It returns a list exactly when both tiers do. *)
Theorem get_all_models_concat (cfg : yaml) (app arch : string) :
  (∀ d e, get_default_models cfg app arch = Ok d →
          get_extra_models cfg app arch = Ok e →
          get_all_models cfg app arch = Ok (d ++ e)
          ∧ (∀ i, (i < List.length d)%nat → (d ++ e) !! i = d !! i)
          ∧ (∀ j, (d ++ e) !! (List.length d + j)%nat = e !! j)
          ∧ List.length (d ++ e) = (List.length d + List.length e)%nat)
  ∧ (∀ ms, get_all_models cfg app arch = Ok ms
           ↔ ∃ d e, get_default_models cfg app arch = Ok d
                    ∧ get_extra_models cfg app arch = Ok e
                    ∧ ms = d ++ e).
Proof.
  unfold get_all_models. split.
  - intros d e -> ->. split; [reflexivity|]. split; [|split].
    + intros i Hi. by apply lookup_app_l.
    + intros j. by rewrite lookup_app_r, Nat.add_comm, Nat.add_sub by lia.
    + apply length_app.
  - intros ms. rewrite bind_Ok. split.
    + intros (d & Hd & He). apply bind_Ok in He as (e & He & [= <-]). eauto.
    + intros (d & e & Hd & He & ->). exists d. split; [exact Hd|].
      rewrite He. reflexivity.
Qed.

(** ** Lookup by name *)

Lemma scan_name_Some ms model m :
  scan_name ms model = Some m
  ↔ ∃ l1 l2, ms = l1 ++ m :: l2 ∧ name m = YStr model
             ∧ Forall (λ x, name x ≠ YStr model) l1.
Proof.
  induction ms as [|x ms IH]; simpl.
  - split; [discriminate|]. intros (l1 & l2 & H & _). by destruct l1.
  - destruct (eq_str (name x) model) eqn:Hx.
    + apply eq_str_true in Hx. split.
      * intros [= <-]. exists [], ms. auto.
      * intros (l1 & l2 & Hms & Hm & Hl1). destruct l1 as [|y l1].
        -- by injection Hms as -> _.
        -- injection Hms as -> _. by inversion Hl1.
    + apply eq_str_false in Hx. rewrite IH. split.
      * intros (l1 & l2 & -> & Hm & Hl1). exists (x :: l1), l2. auto.
      * intros (l1 & l2 & Hms & Hm & Hl1). destruct l1 as [|y l1].
        -- injection Hms as -> _. contradiction.
        -- injection Hms as -> ->. inversion Hl1; subst. eauto.
Qed.

Lemma scan_name_None ms model :
  scan_name ms model = None ↔ Forall (λ x, name x ≠ YStr model) ms.
Proof.
  induction ms as [|x ms IH]; simpl.
  - split; [constructor | reflexivity].
  - destruct (eq_str (name x) model) eqn:Hx.
    + apply eq_str_true in Hx. split; [discriminate|].
      intros H. by inversion H.
    + apply eq_str_false in Hx. rewrite IH. split.
      * by constructor.
      * intros H. by inversion H.
Qed.

(** C7: when the models of the app and architecture resolve to [ms],
    [get_model_info] returns the first entry of [ms] that carries the name
    (an entry with no earlier entry of that name before it), and the
    not-found result exactly when no entry carries it; when the default tier
    has an entry of that name, the entry returned is the first such entry of
    the default tier, whatever the extra tier holds. *)
Theorem get_model_info_first_match (cfg : yaml) (app arch model : string)
    (ms : list ModelEntry) :
  get_all_models cfg app arch = Ok ms →
  (∀ m, get_model_info cfg app arch model = Ok (Some m)
        ↔ ∃ l1 l2, ms = l1 ++ m :: l2 ∧ name m = YStr model
                   ∧ Forall (λ x, name x ≠ YStr model) l1)
  ∧ (get_model_info cfg app arch model = Ok None
     ↔ Forall (λ x, name x ≠ YStr model) ms)
  ∧ (∀ d e m, get_default_models cfg app arch = Ok d →
              get_extra_models cfg app arch = Ok e →
              m ∈ d → name m = YStr model →
              ∃ m' l1 l2, get_model_info cfg app arch model = Ok (Some m')
                          ∧ d = l1 ++ m' :: l2 ∧ name m' = YStr model
                          ∧ Forall (λ x, name x ≠ YStr model) l1).
Proof.
  intros Hms. unfold get_model_info. rewrite Hms. simpl.
  split; [|split].
  - intros m. rewrite <- scan_name_Some. split; [by intros [= ->] | by intros ->].
  - rewrite <- scan_name_None. split; [by intros [= ->] | by intros ->].
  - intros d e m Hd He Hin Hm.
    unfold get_all_models in Hms. rewrite Hd, He in Hms. injection Hms as <-.
    destruct (scan_name d model) as [m'|] eqn:Hscan.
    + pose proof Hscan as (l1 & l2 & -> & Hm' & Hl1)%scan_name_Some.
      exists m', l1, l2. split; [|auto]. f_equal.
      apply scan_name_Some. exists l1, (l2 ++ e).
      by rewrite <- app_assoc.
    + apply scan_name_None in Hscan.
      rewrite Forall_forall in Hscan. by destruct (Hscan m Hin).
Qed.

(** ** Gen-AI detection *)

Lemma scan_source_true ms :
  scan_source ms = true ↔ ∃ m, m ∈ ms ∧ source m = YStr "gen-ai-mz".
Proof.
  induction ms as [|x ms IH]; simpl.
  - split; [discriminate|]. intros (m & Hin & _). by apply elem_of_nil in Hin.
  - destruct (eq_str (source x) "gen-ai-mz") eqn:Hx.
    + apply eq_str_true in Hx. split; [|reflexivity].
      intros _. exists x. split; [left | exact Hx].
    + apply eq_str_false in Hx. rewrite IH. split.
      * intros (m & Hin & Hm). exists m. split; [by right | exact Hm].
      * intros (m & [->|Hin]%elem_of_cons & Hm); [contradiction | eauto].
Qed.

Lemma supported_architectures_inv cfg app archs :
  get_supported_architectures cfg app = Ok archs →
  ∃ d a ms : gmap string yaml,
    cfg = YDict d ∧ dict_get d app (YDict ∅) = YDict a
    ∧ dict_get a "models" (YDict ∅) = YDict ms
    ∧ ∀ k, k ∈ archs ↔ ∃ v, ms !! k = Some v ∧ is_dict v = true.
Proof.
  unfold get_supported_architectures. intros H.
  apply bind_Ok in H as (av & Ha & H). apply py_get_Ok in Ha as (d & -> & ->).
  apply bind_Ok in H as (mv & Hm & H). apply py_get_Ok in Hm as (a & Ha & ->).
  apply bind_Ok in H as (items & Hi & [= <-]).
  destruct (dict_get a "models" (YDict ∅)) as [| | | | | |ms] eqn:Hms;
    try discriminate.
  injection Hi as <-. exists d, a, ms. repeat split; try done.
  - by rewrite sorted_elem_of, arch_keys_elem_of.
  - by rewrite sorted_elem_of, arch_keys_elem_of.
Qed.

(** The models of a supported architecture always resolve. *)
Lemma supported_architecture_resolves cfg app archs arch :
  get_supported_architectures cfg app = Ok archs → arch ∈ archs →
  ∃ ms, get_all_models cfg app arch = Ok ms.
Proof.
  intros (d & a & ms & -> & Ha & Hms & Hk)%supported_architectures_inv Hin.
  apply Hk in Hin as (v & Hv & Hd). destruct v as [| | | | | |av]; try discriminate.
  unfold get_all_models, get_default_models, get_extra_models, tier_slot.
  simpl. rewrite Ha. simpl. rewrite Hms. simpl.
  assert (dict_get ms arch (YDict ∅) = YDict av) as ->
    by (unfold dict_get; by rewrite Hv).
  simpl. eauto.
Qed.

Lemma scan_archs_spec cfg app archs :
  (∀ arch, arch ∈ archs → ∃ ms, get_all_models cfg app arch = Ok ms) →
  ∃ b, scan_archs cfg app archs = Ok b
       ∧ (b = true ↔ ∃ arch ms m, arch ∈ archs
                       ∧ get_all_models cfg app arch = Ok ms
                       ∧ m ∈ ms ∧ source m = YStr "gen-ai-mz").
Proof.
  induction archs as [|arch archs IH]; intros Hres; simpl.
  - exists false. split; [reflexivity|]. split; [discriminate|].
    intros (arch & ms & m & Hin & _). by apply elem_of_nil in Hin.
  - destruct (Hres arch) as [ms Hms]; [left|]. rewrite Hms. simpl.
    destruct (scan_source ms) eqn:Hscan.
    + exists true. split; [reflexivity|]. split; [|reflexivity].
      intros _. apply scan_source_true in Hscan as (m & Hin & Hm).
      exists arch, ms, m. repeat split; [left | done..].
    + destruct IH as (b & Hb & Hiff).
      { intros arch' Hin. apply Hres. by right. }
      exists b. split; [exact Hb|]. rewrite Hiff. split.
      * intros (arch' & ms' & m & Hin & H). exists arch', ms', m.
        split; [by right | exact H].
      * intros (arch' & ms' & m & [->|Hin]%elem_of_cons & Hms' & Hm & Hsrc).
        -- rewrite Hms in Hms'. injection Hms' as <-.
           assert (scan_source ms = true) by (apply scan_source_true; eauto).
           congruence.
        -- exists arch', ms', m. auto.
Qed.

(** C8: [is_gen_ai_app] returns true exactly when some supported
    architecture of the app has, among its resolved models of both tiers, an
    entry whose source is "gen-ai-mz"; it returns a boolean whenever the
    supported architectures can be listed, false when there are none; and
    scanning the supported architectures in any other order gives the same
    result. *)
Theorem is_gen_ai_app_iff (cfg : yaml) (app : string) :
  (is_gen_ai_app cfg app = Ok true
   ↔ ∃ archs arch ms m,
       get_supported_architectures cfg app = Ok archs ∧ arch ∈ archs
       ∧ get_all_models cfg app arch = Ok ms
       ∧ m ∈ ms ∧ source m = YStr "gen-ai-mz")
  ∧ (∀ archs, get_supported_architectures cfg app = Ok archs →
       ∃ b, is_gen_ai_app cfg app = Ok b)
  ∧ (get_supported_architectures cfg app = Ok [] →
       is_gen_ai_app cfg app = Ok false)
  ∧ (∀ archs archs', get_supported_architectures cfg app = Ok archs →
       archs' ≡ₚ archs →
       scan_archs cfg app archs' = is_gen_ai_app cfg app).
Proof.
  unfold is_gen_ai_app. split; [|split; [|split]].
  - rewrite bind_Ok. split.
    + intros (archs & Ha & Hscan).
      destruct (scan_archs_spec cfg app archs) as (b & Hb & Hiff).
      { intros arch. by apply supported_architecture_resolves. }
      rewrite Hscan in Hb. injection Hb as <-.
      destruct (proj1 Hiff eq_refl) as (arch & ms & m & H). eauto 10.
    + intros (archs & arch & ms & m & Ha & H). exists archs. split; [exact Ha|].
      destruct (scan_archs_spec cfg app archs) as (b & Hb & Hiff).
      { intros arch'. by apply supported_architecture_resolves. }
      rewrite Hb. f_equal. apply Hiff. eauto.
  - intros archs Ha. rewrite Ha. simpl.
    destruct (scan_archs_spec cfg app archs) as (b & Hb & _); [|eauto].
    intros arch. by apply supported_architecture_resolves.
  - by intros ->.
  - intros archs archs' Ha Hperm. rewrite Ha. simpl.
    destruct (scan_archs_spec cfg app archs) as (b & Hb & Hiff).
    { intros arch. by apply supported_architecture_resolves. }
    destruct (scan_archs_spec cfg app archs') as (b' & Hb' & Hiff').
    { intros arch Hin. apply (supported_architecture_resolves _ _ archs); [done|].
      by rewrite <- Hperm. }
    rewrite Hb, Hb'. f_equal.
    apply eq_true_iff_eq. rewrite Hiff, Hiff'.
    by setoid_rewrite Hperm.
Qed.

(** ** Available apps *)

(** A comprehension over [items()] that keeps keys never repeats one. *)
Lemma kept_keys_NoDup (P : string * yaml → bool) (l : list (string * yaml)) :
  NoDup l.*1 →
  NoDup (omap (λ kv : string * yaml, if P kv then Some kv.1 else None) l).
Proof.
  induction l as [|kv l IH]; simpl; [constructor|].
  intros [Hnotin Hnd]%NoDup_cons. destruct (P kv); [|by apply IH].
  apply NoDup_cons. split; [|by apply IH].
  intros ([k v] & Hin & Hk)%list_elem_of_omap. simpl in Hk.
  destruct (P (k, v)); [|discriminate]. injection Hk as ->.
  apply Hnotin. apply list_elem_of_fmap. by exists (kv.1, v).
Qed.

Lemma app_keys_elem_of (d : gmap string yaml) k :
  k ∈ omap (λ kv : string * yaml,
              if is_dict kv.2 && bool_decide (kv.1 ∉ skip)
              then Some kv.1 else None)
           (map_to_list d)
  ↔ (∃ v, d !! k = Some v ∧ is_dict v = true) ∧ k ∉ skip.
Proof.
  rewrite list_elem_of_omap. split.
  - intros ([k' v] & Hin & Hk). simpl in Hk.
    destruct (is_dict v) eqn:Hv; [|discriminate]. simpl in Hk.
    case_bool_decide; [|discriminate]. injection Hk as ->.
    apply elem_of_map_to_list in Hin. eauto.
  - intros [(v & Hk & Hv) Hskip]. exists (k, v). split.
    + by apply elem_of_map_to_list.
    + simpl. rewrite Hv. simpl. by rewrite bool_decide_eq_true_2.
Qed.

(** C9: for every resource document (a mapping), [get_available_apps]
    returns a list in ascending order, without repetition, whose members are
    exactly the top-level keys whose value is a mapping and that are not
    reserved; so no reserved key is a member, mapping or not, and no key with
    a value that is not a mapping is. *)
Theorem get_available_apps_sorted_keys (d : gmap string yaml) :
  ∃ apps, get_available_apps (YDict d) = Ok apps
    ∧ StronglySorted String.le apps
    ∧ NoDup apps
    ∧ (∀ k, k ∈ apps ↔ (∃ v, d !! k = Some v ∧ is_dict v = true) ∧ k ∉ skip)
    ∧ (∀ k, k ∈ ["videos"; "images"; "json"; "inputs"; "inputs_aliases"] →
            k ∉ apps)
    ∧ (∀ k v, d !! k = Some v → is_dict v = false → k ∉ apps)
    ∧ (∀ l, StronglySorted String.le l → NoDup l →
            (∀ k, k ∈ l ↔ (∃ v, d !! k = Some v ∧ is_dict v = true) ∧ k ∉ skip) →
            l = apps).
Proof.
  eexists. split; [reflexivity|].
  assert (∀ k, k ∈ sorted (omap (λ kv : string * yaml,
                 if is_dict kv.2 && bool_decide (kv.1 ∉ skip)
                 then Some kv.1 else None) (map_to_list d))
               ↔ (∃ v, d !! k = Some v ∧ is_dict v = true) ∧ k ∉ skip) as Hmem.
  { intros k. by rewrite sorted_elem_of, app_keys_elem_of. }
  assert (StronglySorted String.le (sorted (omap (λ kv : string * yaml,
                 if is_dict kv.2 && bool_decide (kv.1 ∉ skip)
                 then Some kv.1 else None) (map_to_list d)))) as Hsorted.
  { apply StronglySorted_merge_sort; apply _. }
  assert (NoDup (sorted (omap (λ kv : string * yaml,
                 if is_dict kv.2 && bool_decide (kv.1 ∉ skip)
                 then Some kv.1 else None) (map_to_list d)))) as Hnd.
  { unfold sorted. rewrite merge_sort_Permutation.
    apply (kept_keys_NoDup
             (λ kv, is_dict kv.2 && bool_decide (kv.1 ∉ skip))).
    apply NoDup_fst_map_to_list. }
  split; [exact Hsorted|]. split; [exact Hnd|].
  split; [|split; [|split]].
  - exact Hmem.
  - intros k Hk [_ Hskip]%Hmem. apply Hskip. unfold skip.
    repeat (apply elem_of_cons in Hk as [->|Hk]; [set_solver|]).
    by apply elem_of_nil in Hk.
  - intros k v Hk Hv [(v' & Hk' & Hv') _]%Hmem. congruence.
  - intros l Hl Hndl Hmeml. apply (StronglySorted_unique String.le); try done.
    apply NoDup_Permutation; try done.
    intros k. by rewrite Hmeml, Hmem.
Qed.

(** ** The properties on the worked documents *)

Example resource_doc_apps :
  get_available_apps resource_doc = Ok ["detection"; "llm_chat"].
Proof. vm_compute. reflexivity. Qed.

Example resource_doc_archs :
  get_supported_architectures resource_doc "detection" = Ok ["hailo8"].
Proof. vm_compute. reflexivity. Qed.

Example resource_doc_gen_ai :
  is_gen_ai_app resource_doc "llm_chat" = Ok true
  ∧ is_gen_ai_app resource_doc "detection" = Ok false.
Proof. vm_compute. split; reflexivity. Qed.



Lemma load_yaml_truthy_or_empty_witness :
  (_load_yaml demo_fs demo_safe_load "/opt/hailo_apps/config/apps.yaml" []).1
  = Ok (YList [YStr "chat"])
  ∧ (_load_yaml demo_fs demo_safe_load
       "/opt/hailo_apps/config/config.yaml" []).1
    = Ok (YDict ∅).
Proof.
  split.
  - exact (proj1 (load_yaml_truthy_or_empty demo_fs demo_safe_load
             "/opt/hailo_apps/config/apps.yaml" [] "- chat"
             (YList [YStr "chat"]) (cache_sound_nil _ _) eq_refl eq_refl)).
  - exact (proj1 (load_yaml_truthy_or_empty demo_fs demo_safe_load
             "/opt/hailo_apps/config/config.yaml" [] "" YNull
             (cache_sound_nil _ _) eq_refl eq_refl)).
Defined.

Lemma get_all_models_concat_witness :
  get_all_models resource_doc "detection" "hailo8"
  = Ok ([mkModelEntry (YStr "yolov8s") (YStr "mz") YNull]
        ++ [mkModelEntry (YStr "yolov8s") (YStr "s3") (YStr "http://x/s.hef");
            mkModelEntry (YStr "yolov8n") (YStr "mz") YNull]).
Proof.
  apply (proj1 (get_all_models_concat resource_doc "detection" "hailo8"));
    vm_compute; reflexivity.
Defined.

Lemma get_model_info_first_match_witness :
  ∃ m' l1 l2,
    get_model_info resource_doc "detection" "hailo8" "yolov8s" = Ok (Some m')
    ∧ [mkModelEntry (YStr "yolov8s") (YStr "mz") YNull] = l1 ++ m' :: l2
    ∧ name m' = YStr "yolov8s"
    ∧ Forall (λ x, name x ≠ YStr "yolov8s") l1.
Proof.
  refine (proj2 (proj2 (get_model_info_first_match resource_doc
            "detection" "hailo8" "yolov8s"
            [mkModelEntry (YStr "yolov8s") (YStr "mz") YNull;
             mkModelEntry (YStr "yolov8s") (YStr "s3") (YStr "http://x/s.hef");
             mkModelEntry (YStr "yolov8n") (YStr "mz") YNull] _))
          _ [mkModelEntry (YStr "yolov8s") (YStr "s3") (YStr "http://x/s.hef");
             mkModelEntry (YStr "yolov8n") (YStr "mz") YNull]
          (mkModelEntry (YStr "yolov8s") (YStr "mz") YNull) _ _ _ _).
  - vm_compute. reflexivity.
  - vm_compute. reflexivity.
  - vm_compute. reflexivity.
  - left.
  - reflexivity.
Defined.

Lemma is_gen_ai_app_iff_witness :
  is_gen_ai_app resource_doc "llm_chat" = Ok true
  ∧ is_gen_ai_app resource_doc "segmentation" = Ok false.
Proof.
  split.
  - apply (proj1 (is_gen_ai_app_iff resource_doc "llm_chat")).
    exists ["hailo10h"], "hailo10h",
      [mkModelEntry (YStr "qwen") (YStr "gen-ai-mz") YNull],
      (mkModelEntry (YStr "qwen") (YStr "gen-ai-mz") YNull).
    split; [vm_compute; reflexivity|]. split; [left|].
    split; [vm_compute; reflexivity|]. split; [left | reflexivity].
  - apply (proj1 (proj2 (proj2 (is_gen_ai_app_iff resource_doc "segmentation")))).
    vm_compute. reflexivity.
Defined.

Lemma get_available_apps_sorted_keys_witness :
  ∃ apps, get_available_apps resource_doc = Ok apps
    ∧ ("inputs_aliases" ∉ apps) ∧ ("version" ∉ apps) ∧ ("detection" ∈ apps).
Proof.
  destruct (get_available_apps_sorted_keys resource_map)
    as (apps & Heq & _ & _ & Hmem & Hres & Hnon & _).
  exists apps. split; [|split; [|split]].
  - exact Heq.
  - apply Hres. do 4 right. left.
  - apply (Hnon "version" (YInt 2)); vm_compute; reflexivity.
  - apply Hmem. split.
    + eexists. split; [vm_compute; reflexivity | reflexivity].
    + vm_compute. intros H. discriminate H.
Defined.

(** ** Further properties of normalization *)

Lemma extract_models_list l : _extract_models (YList l) = omap spec_element l.
Proof. unfold _extract_models. simpl. apply extract_loop_spec. Qed.

Lemma extract_models_single v :
  (∀ l, v ≠ YList l) → _extract_models v = option_list (spec_element v).
Proof.
  intros Hv. unfold _extract_models. rewrite is_none_spec.
  destruct v as [| | | |s|l|d]; simpl; try reflexivity.
  - destruct (none_string s) eqn:Hs; simpl; [reflexivity|].
    unfold extract_step. simpl. rewrite lower_none, Hs. reflexivity.
  - by destruct (Hv l).
  - rewrite extract_step_spec. reflexivity.
Qed.

(** X1: normalizing a sequence that is the concatenation of two sequences
    gives the entries of the first followed by the entries of the second. *)
Theorem extract_models_app (l1 l2 : list yaml) :
  _extract_models (YList (l1 ++ l2))
  = _extract_models (YList l1) ++ _extract_models (YList l2).
Proof. rewrite !extract_models_list. apply omap_app. Qed.

(** X2: a slot written as a single value that is not a sequence gives the
    same entries as the one-element sequence holding that value. *)
Theorem extract_models_shorthand (v : yaml) :
  (∀ l, v ≠ YList l) → _extract_models v = _extract_models (YList [v]).
Proof.
  intros Hv. rewrite extract_models_single by exact Hv.
  rewrite extract_models_list. simpl. by destruct (spec_element v).
Qed.

Lemma extract_models_shorthand_witness :
  _extract_models (YStr "yolov8n") = _extract_models (YList [YStr "yolov8n"]).
Proof.
  apply (extract_models_shorthand (YStr "yolov8n")). intros l H. discriminate H.
Defined.

Lemma omap_length_le {A B} (f : A → option B) (l : list A) :
  (List.length (omap f l) ≤ List.length l)%nat.
Proof.
  induction l as [|x l IH]; [reflexivity|].
  change (omap f (x :: l))
    with (match f x with Some y => y :: omap f l | None => omap f l end).
  destruct (f x); cbn [List.length]; lia.
Qed.

(** X3: normalization yields at most one entry per element of a sequence,
    and at most one entry for a slot that is not a sequence. *)
Theorem extract_models_length (v : yaml) :
  (List.length (_extract_models v)
   ≤ match v with YList l => List.length l | _ => 1 end)%nat.
Proof.
  assert (∀ o : option ModelEntry, (List.length (option_list o) ≤ 1)%nat) as H1.
  { intros [m|]; simpl; lia. }
  destruct v as [| | | |s|l|d];
    try (rewrite extract_models_single by (intros l' H; discriminate H);
         apply H1).
  rewrite extract_models_list. apply omap_length_le.
Qed.

(** X4: an element of a sequence that is neither a mapping nor a string
    (a number, a boolean, a nested sequence) contributes nothing and does
    not disturb the elements around it. *)
Theorem extract_models_skips_other_shapes (l1 l2 : list yaml) (e : yaml) :
  (∀ s, e ≠ YStr s) → (∀ d, e ≠ YDict d) →
  _extract_models (YList (l1 ++ e :: l2)) = _extract_models (YList (l1 ++ l2)).
Proof.
  intros Hs Hd. rewrite !extract_models_list, !omap_app. f_equal. simpl.
  destruct e as [| | | |s|l|d]; simpl; try reflexivity.
  - by destruct (Hs s).
  - by destruct (Hd d).
Qed.

Lemma extract_models_skips_other_shapes_witness :
  _extract_models (YList ([YStr "yolov8s"] ++ YList [YStr "nested"] :: [YStr "yolov8n"]))
  = _extract_models (YList ([YStr "yolov8s"] ++ [YStr "yolov8n"])).
Proof.
  apply (extract_models_skips_other_shapes [YStr "yolov8s"] [YStr "yolov8n"]
           (YList [YStr "nested"])); intros x H; discriminate H.
Defined.

(** ** Further properties of the model resolver *)

(** X5: when the app and its models are mappings,
    [get_supported_architectures] returns, in ascending order and without
    repetition, exactly the keys of the models mapping whose value is a
    mapping. *)
Theorem supported_architectures_sorted_keys (d a ms : gmap string yaml)
    (app : string) :
  d !! app = Some (YDict a) → a !! "models" = Some (YDict ms) →
  ∃ archs, get_supported_architectures (YDict d) app = Ok archs
    ∧ StronglySorted String.le archs
    ∧ NoDup archs
    ∧ (∀ k, k ∈ archs ↔ ∃ v, ms !! k = Some (YDict v)).
Proof.
  intros Ha Hms. unfold get_supported_architectures. simpl.
  unfold dict_get. rewrite Ha. simpl. unfold dict_get. rewrite Hms. simpl.
  eexists. split; [reflexivity|]. split; [|split].
  - apply StronglySorted_merge_sort; apply _.
  - unfold sorted. rewrite merge_sort_Permutation.
    apply (kept_keys_NoDup (λ kv, is_dict kv.2)). apply NoDup_fst_map_to_list.
  - intros k. rewrite sorted_elem_of, arch_keys_elem_of. split.
    + intros (v & Hk & Hv). destruct v; try discriminate. eauto.
    + intros (v & Hk). eauto.
Qed.

Lemma supported_architectures_sorted_keys_witness :
  ∃ archs, get_supported_architectures (YDict pose_map) "pose" = Ok archs
    ∧ StronglySorted String.le archs
    ∧ NoDup archs
    ∧ (∀ k, k ∈ archs ↔ ∃ v, pose_models !! k = Some (YDict v)).
Proof.
  apply (supported_architectures_sorted_keys pose_map pose_app pose_models
           "pose"); vm_compute; reflexivity.
Defined.

(** X6: every architecture that [get_supported_architectures] lists
    resolves: both tiers and their concatenation are returned, none of the
    three calls raises. *)
Theorem supported_architecture_tiers_resolve (cfg : yaml) (app arch : string)
    (archs : list string) :
  get_supported_architectures cfg app = Ok archs → arch ∈ archs →
  ∃ d e, get_default_models cfg app arch = Ok d
         ∧ get_extra_models cfg app arch = Ok e
         ∧ get_all_models cfg app arch = Ok (d ++ e).
Proof.
  intros Ha Hin.
  destruct (supported_architecture_resolves cfg app archs arch Ha Hin)
    as [ms Hms].
  unfold get_all_models in *.
  destruct (get_default_models cfg app arch) as [d|x]; [|discriminate].
  destruct (get_extra_models cfg app arch) as [e|x]; [|discriminate].
  eauto.
Qed.

Lemma supported_architecture_tiers_resolve_witness :
  ∃ d e, get_default_models resource_doc "llm_chat" "hailo10h" = Ok d
         ∧ get_extra_models resource_doc "llm_chat" "hailo10h" = Ok e
         ∧ get_all_models resource_doc "llm_chat" "hailo10h" = Ok (d ++ e).
Proof.
  apply (supported_architecture_tiers_resolve resource_doc "llm_chat"
           "hailo10h" ["hailo10h"]).
  - vm_compute. reflexivity.
  - left.
Defined.

Lemma tier_slot_raise cfg app arch t1 t2 e :
  tier_slot cfg app arch t1 = Raise e → tier_slot cfg app arch t2 = Raise e.
Proof.
  unfold tier_slot.
  destruct (py_get cfg app (YDict ∅)) as [av|x]; simpl; [|done].
  destruct (py_get av "models" (YDict ∅)) as [mv|x]; simpl; [|done].
  destruct (py_get mv arch (YDict ∅)) as [archv|x]; simpl; [|done].
  by destruct archv.
Qed.

(** X7: the two tiers fail together: [get_default_models] raises an
    exception exactly when [get_extra_models] raises it, and then
    [get_all_models] raises that same exception. *)
Theorem tiers_raise_together (cfg : yaml) (app arch : string) (e : exn) :
  (get_default_models cfg app arch = Raise e
   ↔ get_extra_models cfg app arch = Raise e)
  ∧ (get_all_models cfg app arch = Raise e
     ↔ get_default_models cfg app arch = Raise e).
Proof.
  assert (∀ t, (tier_slot cfg app arch t ≫= λ raw, mret (_extract_models raw))
               = Raise e ↔ tier_slot cfg app arch t = Raise e) as Hslot.
  { intros t. destruct (tier_slot cfg app arch t); simpl; split;
      first [discriminate | by intros [= ->] | done]. }
  assert (get_default_models cfg app arch = Raise e
          ↔ get_extra_models cfg app arch = Raise e) as Hde.
  { unfold get_default_models, get_extra_models. rewrite !Hslot.
    split; apply tier_slot_raise. }
  split; [exact Hde|].
  unfold get_all_models.
  destruct (get_default_models cfg app arch) as [d|x] eqn:Hd; simpl.
  - destruct (get_extra_models cfg app arch) as [ex|x] eqn:He; simpl.
    + split; discriminate.
    + split; [|discriminate]. intros [= ->].
      unfold get_default_models, get_extra_models in *.
      destruct (tier_slot cfg app arch "extra") as [r|y] eqn:Hx;
        simpl in He; [discriminate|]. injection He as ->.
      rewrite (tier_slot_raise _ _ _ _ "default" _ Hx) in Hd. discriminate.
  - reflexivity.
Qed.

(** X8: an app the resource document does not mention is not an error for
    any query: it has no architectures and no models, a model looked up
    under it is not found, and it is not a gen-ai app. *)
Theorem unknown_app_is_empty (d : gmap string yaml) (app arch model : string) :
  d !! app = None →
  get_supported_architectures (YDict d) app = Ok []
  ∧ get_all_models (YDict d) app arch = Ok []
  ∧ get_model_info (YDict d) app arch model = Ok None
  ∧ is_gen_ai_app (YDict d) app = Ok false.
Proof.
  intros Happ.
  assert (get_supported_architectures (YDict d) app = Ok []) as Harchs.
  { unfold get_supported_architectures. simpl. unfold dict_get.
    rewrite Happ. simpl. unfold dict_get. rewrite lookup_empty. simpl.
    by rewrite map_to_list_empty. }
  assert (get_all_models (YDict d) app arch = Ok []) as Hall.
  { unfold get_all_models, get_default_models, get_extra_models, tier_slot.
    simpl. unfold dict_get. rewrite Happ. simpl.
    unfold dict_get. rewrite !lookup_empty. reflexivity. }
  split; [exact Harchs|]. split; [exact Hall|]. split.
  - unfold get_model_info. by rewrite Hall.
  - unfold is_gen_ai_app. by rewrite Harchs.
Qed.

Lemma unknown_app_is_empty_witness :
  get_supported_architectures resource_doc "segmentation" = Ok []
  ∧ get_all_models resource_doc "segmentation" "hailo8" = Ok []
  ∧ get_model_info resource_doc "segmentation" "hailo8" "yolov8s" = Ok None
  ∧ is_gen_ai_app resource_doc "segmentation" = Ok false.
Proof.
  apply (unknown_app_is_empty resource_map "segmentation" "hailo8" "yolov8s").
  vm_compute. reflexivity.
Defined.

(** ** Further properties of the loader *)

Lemma cache_find_head path v c : cache_find path ((path, v) :: c) = Some v.
Proof. simpl. by rewrite String.eqb_refl. Qed.

Lemma load_yaml_Ok_cached fs safe_load path c v :
  (_load_yaml fs safe_load path c).1 = Ok v →
  cache_find path (_load_yaml fs safe_load path c).2 = Some v.
Proof.
  unfold _load_yaml. destruct (cache_find path c) as [w|] eqn:Hf; cbn [fst snd].
  - intros [= ->]. apply cache_find_head.
  - destruct (_load_yaml_wrapped fs safe_load path) as [w|e]; cbn [fst snd];
      [|discriminate].
    intros [= ->]. apply cache_find_head.
Qed.

(** X9: when a load of a path has returned a document, a load of the same
    path from the resulting cache returns that document, whatever the file
    system and the parser would then give: the file is not read again,
    even when it has changed or is gone. *)
Theorem load_yaml_memoised (fs fs' : Path → option file)
    (safe_load safe_load' : string → parse_result) (path : Path) (c : Cache)
    (v : yaml) :
  (_load_yaml fs safe_load path c).1 = Ok v →
  (_load_yaml fs' safe_load' path (_load_yaml fs safe_load path c).2).1 = Ok v.
Proof.
  intros Hv%load_yaml_Ok_cached.
  unfold _load_yaml at 1. by rewrite Hv.
Qed.

Lemma load_yaml_memoised_witness :
  (_load_yaml (λ _, None) demo_safe_load "/opt/hailo_apps/config/apps.yaml"
     (_load_yaml demo_fs demo_safe_load "/opt/hailo_apps/config/apps.yaml" []).2).1
  = Ok (YList [YStr "chat"]).
Proof.
  apply (load_yaml_memoised demo_fs (λ _, None) demo_safe_load demo_safe_load).
  reflexivity.
Defined.

(** X10: a load that raises leaves the cache as it was, so the error is
    not remembered: the next load of the path runs the body again on the
    file system of that moment. *)
Theorem load_yaml_error_not_cached (fs fs' : Path → option file)
    (safe_load safe_load' : string → parse_result) (path : Path) (c : Cache)
    (e : exn) :
  (_load_yaml fs safe_load path c).1 = Raise e →
  (_load_yaml fs safe_load path c).2 = c
  ∧ (_load_yaml fs' safe_load' path c).1 = _load_yaml_wrapped fs' safe_load' path.
Proof.
  unfold _load_yaml.
  destruct (cache_find path c) as [w|] eqn:Hf; cbn [fst snd]; [discriminate|].
  destruct (_load_yaml_wrapped fs safe_load path) as [w|x]; cbn [fst snd];
    [discriminate|].
  intros _. split; [reflexivity|].
  by destruct (_load_yaml_wrapped fs' safe_load' path).
Qed.

Lemma load_yaml_error_not_cached_witness :
  (_load_yaml (λ _, None) demo_safe_load "/opt/hailo_apps/config/apps.yaml" []).2
  = []
  ∧ (_load_yaml demo_fs demo_safe_load "/opt/hailo_apps/config/apps.yaml" []).1
    = _load_yaml_wrapped demo_fs demo_safe_load
        "/opt/hailo_apps/config/apps.yaml".
Proof.
  apply (load_yaml_error_not_cached (λ _, None) demo_fs demo_safe_load
           demo_safe_load "/opt/hailo_apps/config/apps.yaml" []
           (ConfigError
              "Missing config file: /opt/hailo_apps/config/apps.yaml" None)).
  reflexivity.
Defined.

Lemma cache_find_None path c : cache_find path c = None → path ∉ c.*1.
Proof.
  induction c as [|[p w] c IH]; simpl; [intros _; apply not_elem_of_nil|].
  destruct (String.eqb_spec p path) as [->|Hne]; [discriminate|].
  intros Hf [Heq|Hin]%elem_of_cons; [congruence | by apply IH].
Qed.

Lemma cache_drop_keys path c : path ∉ (cache_drop path c).*1.
Proof.
  intros ([p w] & -> & Hin)%list_elem_of_fmap.
  apply list_elem_of_filter in Hin as [Hne _]. by apply Hne.
Qed.

Lemma cache_drop_NoDup path c : NoDup c.*1 → NoDup (cache_drop path c).*1.
Proof.
  induction c as [|[p w] c IH]; [done|].
  rewrite fmap_cons. intros [Hnotin Hnd]%NoDup_cons.
  unfold cache_drop, Cache. rewrite filter_cons. case_decide; [|by apply IH].
  rewrite fmap_cons. apply NoDup_cons. split; [|by apply IH].
  intros ([p' w'] & Heq & Hin)%list_elem_of_fmap. simpl in Heq. subst p'.
  apply list_elem_of_filter in Hin as [_ Hin].
  apply Hnotin, list_elem_of_fmap. by exists (p, w').
Qed.

Lemma load_yaml_keys_NoDup fs safe_load path c :
  NoDup c.*1 → NoDup (_load_yaml fs safe_load path c).2.*1.
Proof.
  intros Hnd. unfold _load_yaml.
  destruct (cache_find path c) as [w|] eqn:Hf; cbn [fst snd].
  - simpl. apply NoDup_cons. split;
      [apply cache_drop_keys | by apply cache_drop_NoDup].
  - destruct (_load_yaml_wrapped fs safe_load path) as [w|x]; cbn [fst snd];
      [|exact Hnd].
    rewrite fmap_take.
    apply (sublist_NoDup _ ((path, w) :: c).*1); [|apply sublist_take].
    rewrite fmap_cons. apply NoDup_cons.
    split; [by apply cache_find_None | exact Hnd].
Qed.

(** X11: in every state a process can reach by loading paths, starting from
    the empty cache, the cache holds at most 16 documents, at most one per
    path, each of them the document the body returns for its path; so a
    load returns what the body returns. *)
Theorem reachable_cache_invariants (fs : Path → option file)
    (safe_load : string → parse_result) (paths : list Path) (path : Path) :
  (List.length (load_sequence fs safe_load paths []) ≤ 16)%nat
  ∧ NoDup (load_sequence fs safe_load paths []).*1
  ∧ cache_sound fs safe_load (load_sequence fs safe_load paths [])
  ∧ (_load_yaml fs safe_load path (load_sequence fs safe_load paths [])).1
    = _load_yaml_wrapped fs safe_load path.
Proof.
  assert (∀ c, (List.length c ≤ maxsize)%nat ∧ NoDup c.*1
               ∧ cache_sound fs safe_load c →
               (List.length (load_sequence fs safe_load paths c) ≤ maxsize)%nat
               ∧ NoDup (load_sequence fs safe_load paths c).*1
               ∧ cache_sound fs safe_load (load_sequence fs safe_load paths c))
    as Hinv.
  { induction paths as [|p paths IH]; intros c (Hlen & Hnd & Hs); [done|].
    simpl. apply IH. split; [|split].
    - by apply load_yaml_bounded.
    - by apply load_yaml_keys_NoDup.
    - by apply load_yaml_keeps_sound. }
  destruct (Hinv []) as (Hlen & Hnd & Hs).
  { split; [unfold maxsize; simpl; lia|]. split; [constructor|].
    apply cache_sound_nil. }
  split; [exact Hlen|]. split; [exact Hnd|]. split; [exact Hs|].
  by apply load_yaml_transparent.
Qed.

(** X12: when the cache is sound, a document a load returns is truthy or
    is the empty mapping: a caller never receives null, false, zero, an
    empty string or an empty sequence. *)
Theorem loaded_document_never_falsy (fs : Path → option file)
    (safe_load : string → parse_result) (path : Path) (c : Cache) (v : yaml) :
  cache_sound fs safe_load c →
  (_load_yaml fs safe_load path c).1 = Ok v →
  truthy v = true ∨ v = YDict ∅.
Proof.
  intros Hc. rewrite load_yaml_transparent by exact Hc.
  unfold _load_yaml_wrapped.
  destruct (fs path) as [[text|cls msg]|]; [|discriminate..].
  destruct (safe_load text) as [w|x|cls msg]; [|discriminate..].
  destruct (truthy w) eqn:Hw; intros [= <-]; auto.
Qed.

Lemma loaded_document_never_falsy_witness :
  truthy (YDict ∅) = true ∨ YDict ∅ = YDict ∅.
Proof.
  apply (loaded_document_never_falsy demo_fs demo_safe_load
           "/opt/hailo_apps/config/config.yaml" []).
  - apply cache_sound_nil.
  - reflexivity.
Defined.

Lemma cache_find_drop path q c :
  q ≠ path → cache_find q (cache_drop path c) = cache_find q c.
Proof.
  intros Hne. unfold cache_drop, Cache.
  induction c as [|[p w] c IH]; [done|].
  rewrite filter_cons. case_decide as Hp; simpl.
  - by rewrite IH.
  - rewrite IH. destruct (String.eqb_spec p q) as [Hpq|_]; [|done].
    simpl in Hp. congruence.
Qed.

(** X13: a load leaves the documents cached for other paths in place when
    it is a hit or when the cache holds fewer than 16 documents; only a miss
    on a full cache evicts. *)
Theorem load_yaml_keeps_other_paths (fs : Path → option file)
    (safe_load : string → parse_result) (path q : Path) (c : Cache) :
  q ≠ path →
  (List.length c < 16)%nat ∨ is_Some (cache_find path c) →
  cache_find q (_load_yaml fs safe_load path c).2 = cache_find q c.
Proof.
  intros Hne Hroom. unfold _load_yaml.
  destruct (cache_find path c) as [w|] eqn:Hf; cbn [fst snd].
  - simpl. destruct (String.eqb_spec path q) as [->|_]; [done|].
    by apply cache_find_drop.
  - destruct Hroom as [Hlen|[w Hw]]; [|discriminate].
    destruct (_load_yaml_wrapped fs safe_load path) as [w|x]; cbn [fst snd];
      [|done].
    rewrite take_ge by (unfold maxsize; simpl; lia).
    simpl. by destruct (String.eqb_spec path q) as [->|_].
Qed.

Lemma load_yaml_keeps_other_paths_witness :
  cache_find "/opt/hailo_apps/config/config.yaml"
    (_load_yaml demo_fs demo_safe_load "/opt/hailo_apps/config/apps.yaml"
       [("/opt/hailo_apps/config/config.yaml", YDict ∅)]).2
  = cache_find "/opt/hailo_apps/config/config.yaml"
      [("/opt/hailo_apps/config/config.yaml", YDict ∅)].
Proof.
  apply (load_yaml_keeps_other_paths demo_fs demo_safe_load).
  - intros H. discriminate H.
  - left. simpl. lia.
Defined.

(** ** Path resolution and the main configuration *)

Lemma parents_2_app (root : list string) (a b c : string) :
  parents (root ++ [a; b; c]) 2 = Returns root.
Proof.
  unfold parents. rewrite length_app. simpl.
  destruct (Nat.ltb_spec 2 (List.length root + 3)) as [_|H]; [|lia].
  f_equal. replace (List.length root + 3 - 3)%nat with (List.length root) by lia.
  by rewrite take_app_length.
Qed.

Lemma repo_root_memo module_file w r :
  _repo_root w = Some r → repo_root module_file w = (Returns r, w).
Proof. unfold repo_root. by intros ->. Qed.

(** X14: when [config_core.py] lies in [hailo_apps/config] under some
    root, the first resolution gives the two documents as files of that
    same directory, and remembers the root: every later resolution gives the
    same two paths, wherever the module file is then said to be. *)
Theorem config_files_beside_module (root : list string) (f : string)
    (w : World) (module_file' : list string) :
  _repo_root w = None →
  (main_config (root ++ ["hailo_apps"; "config"; f]) w).1
  = Returns (root ++ ["hailo_apps"; "config"] ++ ["config.yaml"])
  ∧ (resources_config (root ++ ["hailo_apps"; "config"; f]) w).1
    = Returns (root ++ ["hailo_apps"; "config"] ++ ["resources_config.yaml"])
  ∧ (main_config module_file'
       (main_config (root ++ ["hailo_apps"; "config"; f]) w).2).1
    = Returns (root ++ ["hailo_apps"; "config"] ++ ["config.yaml"])
  ∧ (resources_config module_file'
       (main_config (root ++ ["hailo_apps"; "config"; f]) w).2).1
    = Returns (root ++ ["hailo_apps"; "config"] ++ ["resources_config.yaml"]).
Proof.
  intros Hw.
  assert (repo_root (root ++ ["hailo_apps"; "config"; f]) w
          = (Returns root, mkWorld (yaml_cache w) (Some root))) as Hroot.
  { unfold repo_root. by rewrite Hw, parents_2_app. }
  unfold main_config, resources_config, config_dir, M_bind, M_ret.
  rewrite Hroot. cbn [fst snd].
  rewrite (repo_root_memo module_file' _ root) by reflexivity.
  by rewrite <- !app_assoc.
Qed.

Lemma config_files_beside_module_witness :
  (main_config ["opt"; "hailo_apps"; "config"; "config_core.py"]
     (mkWorld [] None)).1
  = Returns ["opt"; "hailo_apps"; "config"; "config.yaml"].
Proof.
  apply (config_files_beside_module ["opt"] "config_core.py" (mkWorld [] None)
           []).
  reflexivity.
Defined.

Lemma main_config_keeps_cache module_file w :
  yaml_cache (main_config module_file w).2 = yaml_cache w.
Proof.
  unfold main_config, config_dir, M_bind, M_ret, repo_root.
  destruct (_repo_root w); [done|].
  by destruct (parents module_file 2).
Qed.

Lemma main_config_split module_file w p :
  (main_config module_file w).1 = Returns p →
  main_config module_file w = (Returns p, (main_config module_file w).2).
Proof. intros <-. by destruct (main_config module_file w). Qed.

(** What [get_main_config] followed by [cfg.get(key, {})] returns. *)
Lemma main_section_outcome fs safe_load module_file w p key :
  (main_config module_file w).1 = Returns p →
  cache_sound fs safe_load (yaml_cache w) →
  (M_bind (get_main_config fs safe_load module_file)
          (λ cfg, M_lift (py_get cfg key (YDict ∅))) w).1
  = lift (_load_yaml_wrapped fs safe_load (render p)
          ≫= λ cfg, py_get cfg key (YDict ∅)).
Proof.
  intros Hp Hs. unfold get_main_config, M_bind at 1 2.
  rewrite (main_config_split _ _ _ Hp). unfold load_yaml.
  rewrite main_config_keeps_cache.
  pose proof (load_yaml_transparent fs safe_load (render p) (yaml_cache w) Hs)
    as Ht.
  destruct (_load_yaml fs safe_load (render p) (yaml_cache w)) as [r c].
  simpl in Ht. subst r.
  destruct (_load_yaml_wrapped fs safe_load (render p)); reflexivity.
Qed.

(** X15: with the main document at path [p] and a sound cache,
    [get_resources_path_config] and [get_model_zoo_mapping] raise the
    missing-file configuration error when the file does not exist, return
    the empty mapping when the file parses to a falsy value, and otherwise,
    for a mapping, return the value under their key, the empty mapping when
    the key is absent. *)
Theorem main_sections_default_empty (fs : Path → option file)
    (safe_load : string → parse_result) (module_file : list string)
    (w : World) (p : list string) :
  (main_config module_file w).1 = Returns p →
  cache_sound fs safe_load (yaml_cache w) →
  (fs (render p) = None →
     (get_resources_path_config fs safe_load module_file w).1
     = Fails (CoreExn (ConfigError ("Missing config file: " +:+ render p) None))
     ∧ (get_model_zoo_mapping fs safe_load module_file w).1
       = Fails (CoreExn (ConfigError ("Missing config file: " +:+ render p)
                                     None)))
  ∧ (∀ text v, fs (render p) = Some (Readable text) → safe_load text = Parsed v →
       truthy v = false →
       (get_resources_path_config fs safe_load module_file w).1
       = Returns (YDict ∅)
       ∧ (get_model_zoo_mapping fs safe_load module_file w).1
         = Returns (YDict ∅))
  ∧ (∀ text d, fs (render p) = Some (Readable text) →
       safe_load text = Parsed (YDict d) →
       (get_resources_path_config fs safe_load module_file w).1
       = Returns (default (YDict ∅) (d !! "resources"))
       ∧ (get_model_zoo_mapping fs safe_load module_file w).1
         = Returns (default (YDict ∅) (d !! "model_zoo_mapping"))).
Proof.
  intros Hp Hs. unfold get_resources_path_config, get_model_zoo_mapping.
  rewrite !(main_section_outcome _ _ _ _ p) by done.
  unfold _load_yaml_wrapped. split; [|split].
  - by intros ->.
  - intros text v -> -> ->. done.
  - intros text d -> ->. simpl.
    destruct (bool_decide (d = ∅)) eqn:Hd; simpl.
    + apply bool_decide_eq_true in Hd as ->.
      unfold dict_get. by rewrite !lookup_empty.
    + unfold dict_get.
      by destruct (d !! "resources"), (d !! "model_zoo_mapping").
Qed.

(** X16: when the main document parses to a truthy value that is not a
    mapping (a non-empty sequence, a string, a number),
    [get_resources_path_config] and [get_model_zoo_mapping] raise
    [AttributeError], which is not a configuration error. *)
Theorem main_sections_non_mapping_document (fs : Path → option file)
    (safe_load : string → parse_result) (module_file : list string)
    (w : World) (p : list string) (text : string) (v : yaml) :
  (main_config module_file w).1 = Returns p →
  cache_sound fs safe_load (yaml_cache w) →
  fs (render p) = Some (Readable text) → safe_load text = Parsed v →
  truthy v = true → is_dict v = false →
  (get_resources_path_config fs safe_load module_file w).1
  = Fails (CoreExn (AttributeError (type_name v) "get"))
  ∧ (get_model_zoo_mapping fs safe_load module_file w).1
    = Fails (CoreExn (AttributeError (type_name v) "get")).
Proof.
  intros Hp Hs Hfs Hparse Ht Hd.
  unfold get_resources_path_config, get_model_zoo_mapping.
  rewrite !(main_section_outcome _ _ _ _ p) by done.
  unfold _load_yaml_wrapped. rewrite Hfs, Hparse, Ht. simpl.
  by destruct v.
Qed.

Lemma main_sections_default_empty_witness :
  ((get_resources_path_config (λ _, None) main_safe_load demo_module_file
      demo_world).1
   = Fails (CoreExn (ConfigError
       "Missing config file: /opt/hailo_apps/config/config.yaml" None)))
  ∧ ((get_model_zoo_mapping (main_fs "") main_safe_load demo_module_file
        demo_world).1
     = Returns (YDict ∅))
  ∧ ((get_model_zoo_mapping (main_fs "model_zoo_mapping: {v: 2}")
        main_safe_load demo_module_file demo_world).1
     = Returns (ydict [("v", YInt 2)]))
  ∧ ((get_resources_path_config (main_fs "model_zoo_mapping: {v: 2}")
        main_safe_load demo_module_file demo_world).1
     = Returns (YDict ∅)).
Proof.
  split; [|split; [|split]].
  - refine (proj1 (proj1 (main_sections_default_empty (λ _, None)
              main_safe_load demo_module_file demo_world
              ["opt"; "hailo_apps"; "config"; "config.yaml"] _ _) _)).
    + reflexivity.
    + apply cache_sound_nil.
    + reflexivity.
  - refine (proj2 (proj1 (proj2 (main_sections_default_empty (main_fs "")
              main_safe_load demo_module_file demo_world
              ["opt"; "hailo_apps"; "config"; "config.yaml"] _ _))
              "" YNull _ _ _)).
    + reflexivity.
    + apply cache_sound_nil.
    + reflexivity.
    + reflexivity.
    + reflexivity.
  - refine (proj2 (proj2 (proj2 (main_sections_default_empty
              (main_fs "model_zoo_mapping: {v: 2}")
              main_safe_load demo_module_file demo_world
              ["opt"; "hailo_apps"; "config"; "config.yaml"] _ _))
              "model_zoo_mapping: {v: 2}"
              (list_to_map [("model_zoo_mapping", ydict [("v", YInt 2)])])
              _ _)).
    + reflexivity.
    + apply cache_sound_nil.
    + reflexivity.
    + reflexivity.
  - refine (proj1 (proj2 (proj2 (main_sections_default_empty
              (main_fs "model_zoo_mapping: {v: 2}")
              main_safe_load demo_module_file demo_world
              ["opt"; "hailo_apps"; "config"; "config.yaml"] _ _))
              "model_zoo_mapping: {v: 2}"
              (list_to_map [("model_zoo_mapping", ydict [("v", YInt 2)])])
              _ _)).
    + reflexivity.
    + apply cache_sound_nil.
    + reflexivity.
    + reflexivity.
Defined.

Lemma main_sections_non_mapping_document_witness :
  (get_resources_path_config (main_fs "- chat") main_safe_load
     demo_module_file demo_world).1
  = Fails (CoreExn (AttributeError "list" "get"))
  ∧ (get_model_zoo_mapping (main_fs "- chat") main_safe_load
       demo_module_file demo_world).1
    = Fails (CoreExn (AttributeError "list" "get")).
Proof.
  apply (main_sections_non_mapping_document (main_fs "- chat") main_safe_load
           demo_module_file demo_world
           ["opt"; "hailo_apps"; "config"; "config.yaml"] "- chat"
           (YList [YStr "chat"])).
  - reflexivity.
  - apply cache_sound_nil.
  - reflexivity.
  - reflexivity.
  - reflexivity.
  - reflexivity.
Defined.

(** ** Inputs *)

(** X17: with [inputs] and [inputs_aliases] absent or mappings,
    [get_inputs_for_app] follows one alias and no more: for an app aliased
    to a target it returns the inputs entry of the target, even when the
    target is itself aliased; for an app without alias it returns its own
    entry; and the empty mapping when there is no such entry. *)
Theorem get_inputs_for_app_one_hop (d ins al : gmap string yaml)
    (app : string) :
  default (YDict ∅) (d !! "inputs") = YDict ins →
  default (YDict ∅) (d !! "inputs_aliases") = YDict al →
  (∀ target : string, al !! app = Some (YStr target) →
     get_inputs_for_app (YDict d) app
     = Returns (default (YDict ∅) (ins !! target)))
  ∧ (al !! app = None →
     get_inputs_for_app (YDict d) app
     = Returns (default (YDict ∅) (ins !! app))).
Proof.
  intros Hins Hal.
  assert (dict_get d "inputs" (YDict ∅) = YDict ins) as Hi.
  { unfold dict_get. by destruct (d !! "inputs"). }
  assert (dict_get d "inputs_aliases" (YDict ∅) = YDict al) as Ha.
  { unfold dict_get. by destruct (d !! "inputs_aliases"). }
  unfold get_inputs_for_app, get_inputs_config, resolve_inputs_app. simpl.
  rewrite Hi, Ha. simpl. unfold dict_get. split.
  - intros target ->. simpl. by destruct (ins !! target).
  - intros ->. simpl. by destruct (ins !! app).
Qed.

(** X18: an app aliased to a target that has no alias of its own gets
    exactly what the target gets, result or exception. *)
Theorem get_inputs_for_app_alias_shares (d al : gmap string yaml)
    (app target : string) :
  default (YDict ∅) (d !! "inputs_aliases") = YDict al →
  al !! app = Some (YStr target) → al !! target = None →
  get_inputs_for_app (YDict d) app = get_inputs_for_app (YDict d) target.
Proof.
  intros Hal Happ Htarget.
  assert (dict_get d "inputs_aliases" (YDict ∅) = YDict al) as Ha.
  { unfold dict_get. by destruct (d !! "inputs_aliases"). }
  unfold get_inputs_for_app, get_inputs_config, resolve_inputs_app. simpl.
  rewrite Ha. simpl. unfold dict_get at 2 4. by rewrite Happ, Htarget.
Qed.

(** X19: an alias whose value is a sequence or a mapping is not rejected
    when the document is read; [get_inputs_for_app] then raises [TypeError],
    because such a value cannot be used as a key. *)
Theorem get_inputs_for_app_unhashable_alias (d ins al : gmap string yaml)
    (app : string) (v : yaml) :
  default (YDict ∅) (d !! "inputs") = YDict ins →
  d !! "inputs_aliases" = Some (YDict al) →
  al !! app = Some v →
  (∃ l, v = YList l) ∨ (∃ m, v = YDict m) →
  get_inputs_for_app (YDict d) app
  = Fails (TypeError ("unhashable type: '" +:+ type_name v +:+ "'")).
Proof.
  intros Hins Hal Happ Hv.
  assert (dict_get d "inputs" (YDict ∅) = YDict ins) as Hi.
  { unfold dict_get. by destruct (d !! "inputs"). }
  unfold get_inputs_for_app, get_inputs_config, resolve_inputs_app. simpl.
  rewrite Hi. unfold dict_get at 1. rewrite Hal. simpl.
  unfold dict_get at 1. rewrite Happ. simpl.
  by destruct Hv as [[l ->]|[m ->]].
Qed.

Lemma get_inputs_for_app_one_hop_witness :
  get_inputs_for_app resource_doc "llm_chat"
  = Returns (ydict [("images", YList [])])
  ∧ get_inputs_for_app resource_doc "detection" = Returns (YDict ∅).
Proof.
  split.
  - refine (proj1 (get_inputs_for_app_one_hop resource_map
              (list_to_map [("chat", ydict [("images", YList [])])])
              (list_to_map [("llm_chat", YStr "chat")]) "llm_chat" _ _)
              "chat" _); vm_compute; reflexivity.
  - refine (proj2 (get_inputs_for_app_one_hop resource_map
              (list_to_map [("chat", ydict [("images", YList [])])])
              (list_to_map [("llm_chat", YStr "chat")]) "detection" _ _) _);
      vm_compute; reflexivity.
Defined.

Lemma get_inputs_for_app_alias_shares_witness :
  get_inputs_for_app resource_doc "llm_chat"
  = get_inputs_for_app resource_doc "chat".
Proof.
  apply (get_inputs_for_app_alias_shares resource_map
           (list_to_map [("llm_chat", YStr "chat")]) "llm_chat" "chat");
    vm_compute; reflexivity.
Defined.

Lemma get_inputs_for_app_unhashable_alias_witness :
  get_inputs_for_app
    (YDict (list_to_map
       [("inputs_aliases", ydict [("llm_chat", YList [YStr "chat"])])]))
    "llm_chat"
  = Fails (TypeError "unhashable type: 'list'").
Proof.
  apply (get_inputs_for_app_unhashable_alias _ ∅
           (list_to_map [("llm_chat", YList [YStr "chat"])]) "llm_chat"
           (YList [YStr "chat"])).
  - vm_compute. reflexivity.
  - vm_compute. reflexivity.
  - vm_compute. reflexivity.
  - left. exists [YStr "chat"]. reflexivity.
Defined.

(** ** Audio devices *)

(** The headset is the default output, but as it also records its flag
    is judged against the default input: the virtual device wins both
    selections. *)
Example demo_devices_listed :
  (AudioDiagnostics.id <$> (AudioDiagnostics.list_audio_devices demo_query).1)
  = [1%Z; 2%Z]
  ∧ (AudioDiagnostics.id <$> (AudioDiagnostics.list_audio_devices demo_query).2)
    = [0%Z; 1%Z; 2%Z]
  ∧ AudioDiagnostics.auto_detect_devices rate_16000 demo_query
    = (Some 2%Z, Some 2%Z).
Proof. vm_compute. repeat split. Qed.

Lemma score_device_bounds (TARGET_SR : spec_float)
    (device : AudioDiagnostics.AudioDeviceInfo) (is_input : bool) :
  (-50 ≤ AudioDiagnostics.score_device TARGET_SR device is_input ≤ 170)%Z.
Proof.
  unfold AudioDiagnostics.score_device.
  destruct (AudioDiagnostics.is_default device),
    (str_contains "usb" (AudioDiagnostics.name_lower (AudioDiagnostics.name device))),
    (str_contains "hdmi" (AudioDiagnostics.name_lower (AudioDiagnostics.name device))),
    (AudioDiagnostics.rate_matches TARGET_SR
       (AudioDiagnostics.default_samplerate device)),
    is_input; simpl; lia.
Qed.

(** X20: the score of a device lies between -50 and 170, and the score of
    a device as an output is never negative. *)
Theorem score_device_range (TARGET_SR : spec_float)
    (device : AudioDiagnostics.AudioDeviceInfo) (is_input : bool) :
  (-50 ≤ AudioDiagnostics.score_device TARGET_SR device is_input ≤ 170)%Z
  ∧ (0 ≤ AudioDiagnostics.score_device TARGET_SR device false)%Z.
Proof.
  split; [apply score_device_bounds|].
  unfold AudioDiagnostics.score_device.
  destruct (AudioDiagnostics.is_default device),
    (str_contains "usb" (AudioDiagnostics.name_lower (AudioDiagnostics.name device))),
    (str_contains "hdmi" (AudioDiagnostics.name_lower (AudioDiagnostics.name device))),
    (AudioDiagnostics.rate_matches TARGET_SR
       (AudioDiagnostics.default_samplerate device)),
    is_input; simpl; lia.
Qed.

(** X21: as an output, a default device scores higher than any device that
    is not the default, whatever the names and sample rates. *)
Theorem default_device_outranks (TARGET_SR : spec_float)
    (d1 d2 : AudioDiagnostics.AudioDeviceInfo) :
  AudioDiagnostics.is_default d1 = true →
  AudioDiagnostics.is_default d2 = false →
  (AudioDiagnostics.score_device TARGET_SR d2 false
   < AudioDiagnostics.score_device TARGET_SR d1 false)%Z.
Proof.
  intros H1 H2. unfold AudioDiagnostics.score_device. rewrite H1, H2.
  destruct (str_contains "usb" (AudioDiagnostics.name_lower (AudioDiagnostics.name d1))),
    (str_contains "usb" (AudioDiagnostics.name_lower (AudioDiagnostics.name d2))),
    (str_contains "hdmi" (AudioDiagnostics.name_lower (AudioDiagnostics.name d1))),
    (str_contains "hdmi" (AudioDiagnostics.name_lower (AudioDiagnostics.name d2))),
    (AudioDiagnostics.rate_matches TARGET_SR
       (AudioDiagnostics.default_samplerate d1)),
    (AudioDiagnostics.rate_matches TARGET_SR
       (AudioDiagnostics.default_samplerate d2));
    simpl; lia.
Qed.

Lemma default_device_outranks_witness :
  (AudioDiagnostics.score_device rate_16000
     (AudioDiagnostics.device_info 2 0 1
        (AudioDiagnostics.mkRawDevice "USB Audio Device" 0 1 2 rate_16000))
     false
   < AudioDiagnostics.score_device rate_16000
       (AudioDiagnostics.device_info 2 0 0
          (AudioDiagnostics.mkRawDevice "HDA Intel HDMI 0" 0 0 2 rate_48000))
       false)%Z.
Proof.
  apply (default_device_outranks rate_16000
           (AudioDiagnostics.device_info 2 0 0
              (AudioDiagnostics.mkRawDevice "HDA Intel HDMI 0" 0 0 2 rate_48000))
           (AudioDiagnostics.device_info 2 0 1
              (AudioDiagnostics.mkRawDevice "USB Audio Device" 0 1 2 rate_16000)));
    reflexivity.
Defined.

(** The selection loop, run on [l] from the initial pair, either has kept
    the initial pair, every score being at most the initial one, or holds a
    device of [l] that beats everything before it and is not beaten after
    it. *)
Lemma best_fold_spec (TARGET_SR : spec_float) (is_input : bool) (s0 : Z)
    (l : list AudioDiagnostics.AudioDeviceInfo) :
  (fold_left (AudioDiagnostics.best_step TARGET_SR is_input) l (None, s0)
   = (None, s0)
   ∧ Forall (λ x, (AudioDiagnostics.score_device TARGET_SR x is_input ≤ s0)%Z) l)
  ∨ ∃ l1 dev l2, l = l1 ++ dev :: l2
      ∧ fold_left (AudioDiagnostics.best_step TARGET_SR is_input) l (None, s0)
        = (Some (AudioDiagnostics.id dev),
           AudioDiagnostics.score_device TARGET_SR dev is_input)
      ∧ (s0 < AudioDiagnostics.score_device TARGET_SR dev is_input)%Z
      ∧ Forall (λ x, (AudioDiagnostics.score_device TARGET_SR x is_input
                      < AudioDiagnostics.score_device TARGET_SR dev is_input)%Z) l1
      ∧ Forall (λ x, (AudioDiagnostics.score_device TARGET_SR x is_input
                      ≤ AudioDiagnostics.score_device TARGET_SR dev is_input)%Z) l2.
Proof.
  induction l as [|x l IH] using rev_ind.
  - left. split; [reflexivity | constructor].
  - rewrite fold_left_app. simpl.
    destruct IH as [[Hacc Hall]|(l1 & dev & l2 & -> & Hacc & Hs0 & H1 & H2)];
      rewrite Hacc; unfold AudioDiagnostics.best_step; simpl.
    + destruct (Z.ltb_spec s0
                  (AudioDiagnostics.score_device TARGET_SR x is_input)) as [Hlt|Hge].
      * right. exists l, x, []. split; [reflexivity|]. split; [reflexivity|].
        split; [exact Hlt|]. split; [|constructor].
        eapply Forall_impl; [exact Hall|]. simpl. intros; lia.
      * left. split; [reflexivity|]. apply Forall_app. split; [exact Hall|].
        by constructor.
    + right.
      destruct (Z.ltb_spec
                  (AudioDiagnostics.score_device TARGET_SR dev is_input)
                  (AudioDiagnostics.score_device TARGET_SR x is_input)) as [Hlt|Hge].
      * exists (l1 ++ dev :: l2), x, []. split; [reflexivity|].
        split; [reflexivity|]. split; [lia|]. split; [|constructor].
        apply Forall_app. split.
        -- eapply Forall_impl; [exact H1|]. simpl. intros; lia.
        -- constructor; [exact Hlt|].
           eapply Forall_impl; [exact H2|]. simpl. intros; lia.
      * exists l1, dev, (l2 ++ [x]). split; [by rewrite <- app_assoc|].
        split; [reflexivity|]. split; [exact Hs0|]. split; [exact H1|].
        apply Forall_app. split; [exact H2 | by constructor].
Qed.

(** X22: [auto_detect_devices] finds no input exactly when no input device
    is listed; otherwise the id it returns is that of a listed input device
    whose score is strictly higher than the scores of the devices listed
    before it and at least the scores of the devices listed after it.  The
    same holds for the output. *)
Theorem auto_detect_first_best (TARGET_SR : spec_float)
    (query : option (list AudioDiagnostics.RawDevice * (Z * Z)))
    (is_input : bool) :
  let devs := if is_input then (AudioDiagnostics.list_audio_devices query).1
              else (AudioDiagnostics.list_audio_devices query).2 in
  let best := if is_input
              then (AudioDiagnostics.auto_detect_devices TARGET_SR query).1
              else (AudioDiagnostics.auto_detect_devices TARGET_SR query).2 in
  (best = None ↔ devs = [])
  ∧ (∀ i, best = Some i →
       ∃ l1 dev l2, devs = l1 ++ dev :: l2 ∧ AudioDiagnostics.id dev = i
         ∧ Forall (λ x, (AudioDiagnostics.score_device TARGET_SR x is_input
                         < AudioDiagnostics.score_device TARGET_SR dev is_input)%Z) l1
         ∧ Forall (λ x, (AudioDiagnostics.score_device TARGET_SR x is_input
                         ≤ AudioDiagnostics.score_device TARGET_SR dev is_input)%Z) l2).
Proof.
  intros devs best.
  assert (best = (fold_left (AudioDiagnostics.best_step TARGET_SR is_input)
                            devs (None, (-9999)%Z)).1) as ->.
  { unfold best, devs, AudioDiagnostics.auto_detect_devices.
    destruct (AudioDiagnostics.list_audio_devices query), is_input; reflexivity. }
  destruct (best_fold_spec TARGET_SR is_input (-9999) devs)
    as [[Hacc Hall]|(l1 & dev & l2 & Hdevs & Hacc & _ & H1 & H2)];
    rewrite Hacc; simpl.
  - destruct devs as [|x devs'].
    + split; [done|]. intros i [=].
    + apply Forall_cons in Hall as [Hx _].
      pose proof (score_device_bounds TARGET_SR x is_input) as [Hlo _]. lia.
  - split.
    + split; [discriminate|]. intros Hnil. rewrite Hnil in Hdevs.
      by destruct l1.
    + intros i [= <-]. eauto 10.
Qed.

Lemma auto_detect_first_best_witness :
  ∃ l1 dev l2,
    (AudioDiagnostics.list_audio_devices demo_query).1 = l1 ++ dev :: l2
    ∧ AudioDiagnostics.id dev = 2%Z
    ∧ Forall (λ x, (AudioDiagnostics.score_device rate_16000 x true
                    < AudioDiagnostics.score_device rate_16000 dev true)%Z) l1
    ∧ Forall (λ x, (AudioDiagnostics.score_device rate_16000 x true
                    ≤ AudioDiagnostics.score_device rate_16000 dev true)%Z) l2.
Proof.
  apply (proj2 (auto_detect_first_best rate_16000 demo_query true) 2%Z).
  reflexivity.
Defined.

Lemma list_loop_closed_form (default_input default_output : Z) (i : nat)
    (devices : list AudioDiagnostics.RawDevice)
    (ins outs : list AudioDiagnostics.AudioDeviceInfo) :
  AudioDiagnostics.list_loop default_input default_output i devices ins outs
  = (ins ++ filter (λ info, (0 < AudioDiagnostics.max_input_channels info)%Z)
              (imap (λ j, AudioDiagnostics.device_info
                            default_input default_output (i + j)) devices),
     outs ++ filter (λ info, (0 < AudioDiagnostics.max_output_channels info)%Z)
               (imap (λ j, AudioDiagnostics.device_info
                             default_input default_output (i + j)) devices)).
Proof.
  revert i ins outs. induction devices as [|dev devices IH]; intros i ins outs.
  - simpl. by rewrite !app_nil_r.
  - simpl. rewrite IH, !filter_cons. rewrite Nat.add_0_r. simpl.
    assert (imap ((λ j, AudioDiagnostics.device_info default_input
                          default_output (i + j)) ∘ S) devices
            = imap (λ j, AudioDiagnostics.device_info default_input
                           default_output (S i + j)) devices) as ->.
    { apply imap_ext. intros j x _. simpl. f_equal. lia. }
    destruct (Z.ltb_spec 0 (AudioDiagnostics.raw_max_input_channels dev));
      destruct (Z.ltb_spec 0 (AudioDiagnostics.raw_max_output_channels dev));
      repeat case_decide; try lia; by rewrite <- ?app_assoc.
Qed.

(** X23: [list_audio_devices] builds one record per reported device, with
    the device's position as id, and returns as inputs those with input
    channels and as outputs those with output channels, each list in the
    order of the report; a device with both is in both lists.  When the
    query raises, both lists are empty. *)
Theorem list_audio_devices_partition
    (devices : list AudioDiagnostics.RawDevice) (default_input default_output : Z) :
  AudioDiagnostics.list_audio_devices
    (Some (devices, (default_input, default_output)))
  = (filter (λ info, (0 < AudioDiagnostics.max_input_channels info)%Z)
       (imap (AudioDiagnostics.device_info default_input default_output) devices),
     filter (λ info, (0 < AudioDiagnostics.max_output_channels info)%Z)
       (imap (AudioDiagnostics.device_info default_input default_output) devices))
  ∧ AudioDiagnostics.list_audio_devices None = ([], []).
Proof.
  split; [|reflexivity]. simpl. by rewrite list_loop_closed_form.
Qed.

(** X24: a listed device that has input channels carries the default flag
    exactly when it is the default input, in the list of outputs too: a
    device that records and plays is not flagged for being the default
    output.  A device without input channels is flagged exactly when it is
    the default output. *)
Theorem default_flag_follows_input
    (devices : list AudioDiagnostics.RawDevice) (default_input default_output : Z)
    (info : AudioDiagnostics.AudioDeviceInfo) :
  info ∈ (AudioDiagnostics.list_audio_devices
            (Some (devices, (default_input, default_output)))).1
  ∨ info ∈ (AudioDiagnostics.list_audio_devices
              (Some (devices, (default_input, default_output)))).2 →
  AudioDiagnostics.is_default info
  = if Z.ltb 0 (AudioDiagnostics.max_input_channels info)
    then Z.eqb (AudioDiagnostics.id info) default_input
    else Z.eqb (AudioDiagnostics.id info) default_output.
Proof.
  simpl. rewrite list_loop_closed_form. simpl.
  intros [Hin|Hin]; apply list_elem_of_filter in Hin as [_ Hin];
    apply elem_of_lookup_imap in Hin as (i & dev & -> & _); reflexivity.
Qed.

Lemma default_flag_follows_input_witness :
  AudioDiagnostics.is_default
    (AudioDiagnostics.device_info 2 1 1
       (AudioDiagnostics.mkRawDevice "USB Audio Device" 0 1 2 rate_16000))
  = false.
Proof.
  apply (default_flag_follows_input demo_devices 2 1
           (AudioDiagnostics.device_info 2 1 1
              (AudioDiagnostics.mkRawDevice "USB Audio Device" 0 1 2 rate_16000))).
  right. vm_compute. right. left.
Defined.

(** ** Downloaded LLM models *)

Lemma candidate_loop_closed_form (known : gset string)
    (files : list (Path * string)) (candidates : list Path) :
  fold_left (candidate_step known) files candidates
  = candidates
    ++ (filter (λ f : Path * string,
                  bool_decide (f.2 ∈ known)
                  || negb (existsb (λ p, String.prefix p f.2) EXCLUDE_PATTERNS)
                     && str_contains "Instruct" f.2)
               files).*1.
Proof.
  revert candidates. induction files as [|f files IH]; intros candidates.
  - simpl. by rewrite app_nil_r.
  - cbn [fold_left]. rewrite IH, filter_cons. unfold candidate_step.
    case_decide as HP;
      destruct (bool_decide (f.2 ∈ known)),
        (existsb (λ p, String.prefix p f.2) EXCLUDE_PATTERNS),
        (str_contains "Instruct" f.2);
      cbn [orb andb negb] in HP;
      try (by destruct HP); try (by destruct HP; exact I);
      rewrite ?fmap_cons, <- ?app_assoc; reflexivity.
Qed.

(** X25: [find_downloaded_llm_models] returns, in the order of the
    directory listing, the files whose stem is a known model name, and of
    the others those whose stem contains "Instruct" and starts with none of
    the excluded prefixes: a known name is kept even under an excluded
    prefix, and an unknown name under an excluded prefix is dropped even
    when it contains "Instruct".  Without the directory the result is
    empty. *)
Theorem find_downloaded_llm_models_selects (LLM_CHAT_APP : string)
    (get_model_names : string → option (list string))
    (files : list (Path * string)) :
  find_downloaded_llm_models LLM_CHAT_APP get_model_names (Some files)
  = (filter (λ f : Path * string,
               bool_decide (f.2 ∈ known_llm_names LLM_CHAT_APP get_model_names)
               || negb (existsb (λ p, String.prefix p f.2) EXCLUDE_PATTERNS)
                  && str_contains "Instruct" f.2)
            files).*1
  ∧ find_downloaded_llm_models LLM_CHAT_APP get_model_names None = [].
Proof.
  split; [|reflexivity].
  unfold find_downloaded_llm_models. by rewrite candidate_loop_closed_form.
Qed.

(** X26: the known names are the names [get_model_names] returns for the
    chat app together with those it returns for "agent"; a lookup that
    raises contributes nothing and does not lose the names of the other. *)
Theorem known_llm_names_union (LLM_CHAT_APP : string)
    (get_model_names : string → option (list string)) (n : string) :
  n ∈ known_llm_names LLM_CHAT_APP get_model_names
  ↔ (∃ names, get_model_names LLM_CHAT_APP = Some names ∧ n ∈ names)
    ∨ (∃ names, get_model_names "agent" = Some names ∧ n ∈ names).
Proof.
  unfold known_llm_names. simpl.
  destruct (get_model_names LLM_CHAT_APP) as [n1|],
    (get_model_names "agent") as [n2|];
    rewrite ?elem_of_union, ?elem_of_list_to_set; split.
  - intros [[H|H]|H]; [set_solver | eauto | eauto].
  - intros [(names & [= <-] & H)|(names & [= <-] & H)]; auto.
  - intros [H|H]; [set_solver | eauto].
  - intros [(names & [= <-] & H)|(names & [=] & _)]. auto.
  - intros [H|H]; [set_solver | eauto].
  - intros [(names & [=] & _)|(names & [= <-] & H)]. auto.
  - set_solver.
  - intros [(names & [=] & _)|(names & [=] & _)].
Qed.

(** A name written with U+0130 counts as an HDMI input. *)
Example score_device_dotted_capital_i :
  AudioDiagnostics.name_lower "HDMİ In" = "hdmi̇ in"
  ∧ AudioDiagnostics.score_device rate_16000
      (AudioDiagnostics.device_info 0 0 1
         (AudioDiagnostics.mkRawDevice "HDMİ In" 0 2 0 rate_48000)) true
    = (-50)%Z.
Proof. vm_compute. split; reflexivity. Qed.

Example rate_matches_examples :
  AudioDiagnostics.rate_matches rate_16000 rate_16000 = true
  ∧ AudioDiagnostics.rate_matches rate_16000 rate_44100 = false
  ∧ AudioDiagnostics.rate_matches rate_16000 S754_nan = false.
Proof. vm_compute. repeat split. Qed.

Example find_models_example :
  find_downloaded_llm_models "llm_chat"
    (λ app, if String.eqb app "llm_chat" then Some ["Whisper-Chat"] else None)
    (Some [("/m/Qwen2-VL-2B-Instruct.hef", "Qwen2-VL-2B-Instruct");
           ("/m/Qwen2.5-1.5B-Instruct.hef", "Qwen2.5-1.5B-Instruct");
           ("/m/Whisper-Chat.hef", "Whisper-Chat");
           ("/m/yolov8s.hef", "yolov8s")])
  = ["/m/Qwen2.5-1.5B-Instruct.hef"; "/m/Whisper-Chat.hef"].
Proof. vm_compute. reflexivity. Qed.
